(** * Cortical hub identification: a shallow embedding of the three scripts

    [Identify_Hubs.py], [Create_Hub_Profiles.py] and [Hub_Density_Map.py]
    are embedded function by function.  Python exceptions and [sys.exit]
    become the [Raise] branch of [result]; files are values passed from the
    function that writes them to the function that reads them.

    Floating-point numbers are modelled with their special values (NaN and
    the two infinities) over an exact carrier: rounding and the sign of zero
    are not modelled.  The carrier is the rationals wherever the code only
    adds, multiplies, divides and compares, so that the embedding runs. *)

From Stdlib Require Import ZArith QArith Qcanon List String Ascii Lia DecimalString DecimalPos.
From stdpp Require Import numbers gmap strings list sorting.

Local Open Scope Z_scope.

(** ** Exceptions and the error monad *)

Inductive exn : Type :=
  | ValueError
  | IndexError
  | KeyError (k : Z)
  | OSError
  | SystemExit (msg : string).

Inductive result (A : Type) : Type :=
  | Ok (a : A)
  | Raise (e : exn).

Arguments Ok {A} a.
Arguments Raise {A} e.

#[global] Instance result_ret : MRet result := fun A a => Ok a.

#[global] Instance result_bind : MBind result := fun A B k m =>
  match m with
  | Ok a => k a
  | Raise e => Raise e
  end.

(** A comprehension or a [for] loop that collects a value per element and
    stops at the first exception. *)
Fixpoint for_each {A B : Type} (f : A -> result B) (l : list A) : result (list B) :=
  match l with
  | [] => Ok []
  | a :: r => b ← f a; bs ← for_each f r; Ok (b :: bs)
  end.

(** A [for] loop that updates a state. *)
Fixpoint fold_result {A S : Type} (f : S -> A -> result S) (s : S) (l : list A) : result S :=
  match l with
  | [] => Ok s
  | a :: r => s' ← f s a; fold_result f s' r
  end.

Definition of_option {A : Type} (e : exn) (o : option A) : result A :=
  match o with
  | Some a => Ok a
  | None => Raise e
  end.

(** ** The fragment of Python's [str] and [int] the scripts use

    Strings are ASCII; [is_space] is [str.isspace] on that range. *)

Module Py.

Definition is_space (c : ascii) : bool :=
  let n := nat_of_ascii c in
  ((9 <=? n)%nat && (n <=? 13)%nat) || ((28 <=? n)%nat && (n <=? 32)%nat).

Fixpoint lstrip_chars (s : list ascii) : list ascii :=
  match s with
  | c :: r => if is_space c then lstrip_chars r else s
  | [] => []
  end.

Definition strip_chars (s : list ascii) : list ascii :=
  rev (lstrip_chars (rev (lstrip_chars s))).

(** [s.strip()] *)
Definition strip (s : string) : string :=
  string_of_list_ascii (strip_chars (list_ascii_of_string s)).

Definition digit_of (c : ascii) : option Z :=
  let n := nat_of_ascii c in
  if ((48 <=? n)%nat && (n <=? 57)%nat)%bool then Some (Z.of_nat (n - 48)) else None.

(** Decimal digits, single underscores allowed between two digits. *)
Fixpoint int_digits (acc : Z) (after_digit : bool) (s : list ascii) : option Z :=
  match s with
  | [] => if after_digit then Some acc else None
  | c :: r =>
      match digit_of c with
      | Some d => int_digits (10 * acc + d) true r
      | None =>
          if (Ascii.eqb c "_" && after_digit)%bool then int_digits acc false r else None
      end
  end.

(** [int(s)] for a string: surrounding blanks, an optional sign, digits. *)
Definition int (s : string) : result Z :=
  of_option ValueError
    match strip_chars (list_ascii_of_string s) with
    | "+"%char :: r => int_digits 0 false r
    | "-"%char :: r => Z.opp <$> int_digits 0 false r
    | t => int_digits 0 false t
    end.

(** A non-empty string is truthy. *)
Definition truthy (s : string) : bool :=
  match s with
  | EmptyString => false
  | _ => true
  end.

(** [range(a, b)] *)
Definition range (a b : Z) : list Z :=
  (fun k => a + Z.of_nat k) <$> seq 0 (Z.to_nat (b - a)).

Arguments range : simpl never.

(** [sorted(l, key=key)]: a stable sort, by insertion after the equal keys. *)
Fixpoint insert_by {A : Type} (key : A -> Z) (x : A) (l : list A) : list A :=
  match l with
  | [] => [x]
  | y :: r => if key x <? key y then x :: l else y :: insert_by key x r
  end.

Definition sorted {A : Type} (key : A -> Z) (l : list A) : list A :=
  fold_left (fun acc x => insert_by key x acc) l [].

(** [str(n)] for an integer: the decimal digits, after a minus sign for a
    negative number. *)
Definition str_int (z : Z) : string := NilZero.string_of_int (Z.to_int z).

Definition LF : ascii := "010"%char.
Definition CR : ascii := "013"%char.
Definition newline : string := String LF EmptyString.

(** [sep.join(parts)] *)
Fixpoint join (sep : string) (parts : list string) : string :=
  match parts with
  | [] => EmptyString
  | p :: r =>
      match r with
      | [] => p
      | _ => String.append p (String.append sep (join sep r))
      end
  end.

(** Text written chunk by chunk with [f.write]. *)
Definition written (chunks : list string) : string :=
  foldr String.append EmptyString chunks.

(** Reading in text mode: a carriage return, alone or before a line feed,
    becomes a line feed. *)
Fixpoint universal_newlines (s : list ascii) : list ascii :=
  match s with
  | [] => []
  | c :: r =>
      if Ascii.eqb c CR then
        LF :: match r with
              | c' :: r' =>
                  if Ascii.eqb c' LF then universal_newlines r' else universal_newlines r
              | [] => []
              end
      else c :: universal_newlines r
  end.

(** The lines of a text, each with its line feed; [cur] holds the
    characters of the current line, last one first. *)
Fixpoint split_lines (cur : list ascii) (s : list ascii) : list string :=
  match s with
  | [] =>
      match cur with
      | [] => []
      | _ => [string_of_list_ascii (rev cur)]
      end
  | c :: r =>
      if Ascii.eqb c LF then string_of_list_ascii (rev (c :: cur)) :: split_lines [] r
      else split_lines (c :: cur) r
  end.

(** [f.readlines()], also the lines of [for line in f]. *)
Definition readlines (content : string) : list string :=
  split_lines [] (universal_newlines (list_ascii_of_string content)).

(** [s.split(sep)] for a separator of one character. *)
Fixpoint split_on (sep : ascii) (cur : list ascii) (s : list ascii) : list string :=
  match s with
  | [] => [string_of_list_ascii (rev cur)]
  | c :: r =>
      if Ascii.eqb c sep then string_of_list_ascii (rev cur) :: split_on sep [] r
      else split_on sep (c :: cur) r
  end.

Definition split (sep : ascii) (s : string) : list string :=
  split_on sep [] (list_ascii_of_string s).

(** [c in s] for a character. *)
Definition contains_char (c : ascii) (s : string) : bool :=
  existsb (Ascii.eqb c) (list_ascii_of_string s).

(** [l[i]] for a list: a negative index counts from the end. *)
Definition getitem {A : Type} (l : list A) (i : Z) : result A :=
  let n := Z.of_nat (length l) in
  let j := if i <? 0 then i + n else i in
  if (0 <=? j) && (j <? n) then of_option IndexError (l !! Z.to_nat j)
  else Raise IndexError.

(** [l.remove(x)] once [x in l] holds: the first element equal to [x]
    goes. *)
Fixpoint remove_first {A : Type} (eq : A -> bool) (l : list A) : list A :=
  match l with
  | [] => []
  | y :: r => if eq y then r else y :: remove_first eq r
  end.

End Py.
(** ** Hub_Density_Map.py *)

Module Density.

(** The literal [{1:0, 2:0, ..., 333:0}]. *)
Definition hub_counts_dict : gmap Z Z :=
  list_to_map ((fun k => (k, 0)) <$> Py.range 1 334).

(** The body of [with open(ind_file)]: strip every line, drop the empty
    ones, convert the others with [int]. *)
Definition read_indices (lines : list string) : result (list Z) :=
  for_each Py.int (filter (fun s => Py.truthy s = true) (Py.strip <$> lines)).

(** [hub_counts_dict[hub_num] = hub_counts_dict[hub_num] + 1] *)
Definition bump (d : gmap Z Z) (hub_num : Z) : result (gmap Z Z) :=
  c ← of_option (KeyError hub_num) (d !! hub_num);
  Ok (<[hub_num := c + 1]> d).

Definition populate_file (d : gmap Z Z) (lines : list string) : result (gmap Z Z) :=
  hub_indices ← read_indices lines;
  fold_result bump d hub_indices.

(** [the_vect]: the counts of parcels 1 to 333 in order. *)
Definition the_vect (d : gmap Z Z) : result (list Z) :=
  for_each (fun h_num => of_option (KeyError h_num) (d !! h_num)) (Py.range 1 334).

(** [main], up to the text file of counts: [files] are the index files in
    the order of [sorted(glob(...))], each as its [readlines()]. *)
Definition main (files : list (list string)) : result (list Z) :=
  d ← fold_result populate_file hub_counts_dict files;
  the_vect d.

(** How often [p] occurs in [l], and in how many of the lists [ls]. *)
Definition occurrences (p : Z) (l : list Z) : Z :=
  Z.of_nat (length (filter (fun h => h = p) l)).

Definition files_containing (p : Z) (ls : list (list Z)) : Z :=
  Z.of_nat (length (filter (fun l => p ∈ l) ls)).

End Density.

(** ** numpy's float64 with its special values *)

Module Np.

(** The exact numbers under the special values: the operations the scripts
    use on them. [c_div] is only called with a non-zero divisor. *)
Class Carrier (F : Type) : Type := {
  c_ofZ : Z -> F;
  c_add : F -> F -> F;
  c_opp : F -> F;
  c_mul : F -> F -> F;
  c_div : F -> F -> F;
  c_cmp : F -> F -> comparison
}.

#[global] Instance Qc_carrier : Carrier Qc := {|
  c_ofZ := Qc_of_Z;
  c_add := Qcplus;
  c_opp := Qcopp;
  c_mul := Qcmult;
  c_div := Qcdiv;
  c_cmp := Qccompare
|}.

Inductive npfloat (F : Type) : Type :=
  | NaN
  | Inf (negative : bool)
  | Num (x : F).

Arguments NaN {F}.
Arguments Inf {F} negative.
Arguments Num {F} x.

Section Arith.
Context {F : Type} `{Carrier F}.

Definition sign (x : F) : comparison := c_cmp x (c_ofZ 0).

Definition of_Z (n : Z) : npfloat F := Num (c_ofZ n).

(** A boolean used as a number: [True] is 1, [False] is 0. *)
Definition of_bool (b : bool) : npfloat F := of_Z (if b then 1 else 0).

Definition isnan (a : npfloat F) : bool :=
  match a with
  | NaN => true
  | _ => false
  end.

Definition isfinite (a : npfloat F) : bool :=
  match a with
  | Num _ => true
  | _ => false
  end.

Definition add (a b : npfloat F) : npfloat F :=
  match a, b with
  | NaN, _ | _, NaN => NaN
  | Inf s, Inf t => if Bool.eqb s t then Inf s else NaN
  | Inf s, Num _ | Num _, Inf s => Inf s
  | Num x, Num y => Num (c_add x y)
  end.

Definition neg (a : npfloat F) : npfloat F :=
  match a with
  | NaN => NaN
  | Inf s => Inf (negb s)
  | Num x => Num (c_opp x)
  end.

Definition sub (a b : npfloat F) : npfloat F := add a (neg b).

Definition mul (a b : npfloat F) : npfloat F :=
  match a, b with
  | NaN, _ | _, NaN => NaN
  | Inf s, Inf t => Inf (xorb s t)
  | Inf s, Num y | Num y, Inf s =>
      match sign y with
      | Eq => NaN
      | Lt => Inf (negb s)
      | Gt => Inf s
      end
  | Num x, Num y => Num (c_mul x y)
  end.

(** Division; a zero divisor is the positive zero. *)
Definition div (a b : npfloat F) : npfloat F :=
  match a, b with
  | NaN, _ | _, NaN => NaN
  | Inf _, Inf _ => NaN
  | Inf s, Num y =>
      match sign y with
      | Lt => Inf (negb s)
      | _ => Inf s
      end
  | Num _, Inf _ => of_Z 0
  | Num x, Num y =>
      match sign y with
      | Eq =>
          match sign x with
          | Eq => NaN
          | Lt => Inf true
          | Gt => Inf false
          end
      | _ => Num (c_div x y)
      end
  end.

Definition square (a : npfloat F) : npfloat F := mul a a.

(** The comparisons: every comparison with NaN is false. *)
Definition compare (a b : npfloat F) : option comparison :=
  match a, b with
  | NaN, _ | _, NaN => None
  | Inf s, Inf t =>
      Some (if Bool.eqb s t then Eq else if s then Lt else Gt)
  | Inf s, Num _ => Some (if s then Lt else Gt)
  | Num _, Inf t => Some (if t then Gt else Lt)
  | Num x, Num y => Some (c_cmp x y)
  end.

Definition ltb (a b : npfloat F) : bool :=
  match compare a b with
  | Some Lt => true
  | _ => false
  end.

Definition leb (a b : npfloat F) : bool :=
  match compare a b with
  | Some Lt | Some Eq => true
  | _ => false
  end.

Definition eqb (a b : npfloat F) : bool :=
  match compare a b with
  | Some Eq => true
  | _ => false
  end.

(** [a != 0], also the truth value of a number: NaN is truthy. *)
Definition nonzero (a : npfloat F) : bool := negb (eqb a (of_Z 0)).

(** [np.sum] of a vector. *)
Definition sum (l : list (npfloat F)) : npfloat F := foldr add (of_Z 0) l.

(** [np.nan_to_num]: NaN becomes 0, the infinities the largest finite
    numbers of either sign. *)
Definition max_float : Z := (2 ^ 53 - 1) * 2 ^ 971.

Definition nan_to_num (a : npfloat F) : npfloat F :=
  match a with
  | NaN => of_Z 0
  | Inf s => of_Z (if s then - max_float else max_float)
  | Num x => Num x
  end.

End Arith.

(** A matrix is the list of its rows. *)
Abbreviation matrix F := (list (list (npfloat F))).

End Np.

(** ** Identify_Hubs.py: the stages after the connectivity matrix *)

Module Hubs.
Import Np.

Section Stages.
Context {F : Type} `{Carrier F}.

(** *** Array helpers (numpy) *)

(** [np.sum(W, axis=1)] *)
Definition row_sums (W : matrix F) : list (npfloat F) := sum <$> W.

(** [np.triu(m, 1)]: entries on and below the diagonal become 0. *)
Definition triu1 (m : matrix F) : matrix F :=
  imap (fun i (row : list (npfloat F)) =>
          imap (fun j (x : npfloat F) => if (i <? j)%nat then x else of_Z 0) row) m.

(** [W != 0] as a 0/1 matrix. *)
Definition nonzero_mask (W : matrix F) : list (list Z) :=
  (fun row : list (npfloat F) => (fun x : npfloat F => if nonzero x then 1 else 0) <$> row) <$> W.

(** [np.diag(ci)] *)
Definition diag (ci : list Z) : list (list Z) :=
  imap (fun k c => <[k := c]> (replicate (length ci) 0)) ci.

Definition Zsum (l : list Z) : Z := foldr Z.add 0 l.

Definition column (j : nat) (D : list (list Z)) : list Z :=
  (fun row => default 0 (row !! j)) <$> D.

(** [np.dot(B, D)] for integer matrices; the inner dimensions must agree. *)
Definition dot (B D : list (list Z)) : result (list (list Z)) :=
  if forallb (fun b => (length b =? length D)%nat) B then
    Ok ((fun b =>
           (fun j => Zsum (zip_with Z.mul b (column j D))) <$> seq 0 (length D)) <$> B)
  else Raise ValueError.

(** [np.unique(ci, return_inverse=True)]: the sorted distinct values, and
    for each element its position among them. *)
Fixpoint insert_unique (x : Z) (l : list Z) : list Z :=
  match l with
  | [] => [x]
  | y :: r =>
      if x <? y then x :: l
      else if x =? y then l
      else y :: insert_unique x r
  end.

Definition unique (l : list Z) : list Z := foldr insert_unique [] l.

Fixpoint index_of (x : Z) (l : list Z) : Z :=
  match l with
  | [] => 0
  | y :: r => if x =? y then 0 else 1 + index_of x r
  end.

Definition unique_inverse (l : list Z) : list Z :=
  (fun x => index_of x (unique l)) <$> l.

(** [np.max] of a vector of integers. *)
Definition max_of (l : list Z) : result Z :=
  match l with
  | [] => Raise ValueError
  | x :: r => Ok (foldr Z.max x r)
  end.

(** [W * (Gc == i)]: the weights times a boolean mask. *)
Definition mask_rows (W : matrix F) (Gc : list (list Z)) (i : Z) : matrix F :=
  zip_with (zip_with (fun (w : npfloat F) (g : Z) => mul w (of_bool (g =? i)))) W Gc.

(** *** The participation coefficient *)

(** The lines the script shares with [bct.participation_coef]: the out
    degree [Ko] and the coefficient [P] before any zero filling. *)
Definition pc_core (W : matrix F) (ci0 : list Z)
  : result (list (npfloat F) * list (npfloat F)) :=
  let ci := (fun c => c + 1) <$> unique_inverse ci0 in
  let Ko := row_sums W in
  Gc ← dot (nonzero_mask W) (diag ci);
  kmax ← max_of ci;
  let Kc2 :=
    fold_left
      (fun acc i => zip_with add acc (square <$> row_sums (mask_rows W Gc i)))
      (Py.range 1 (kmax + 1))
      (replicate (length W) (of_Z 0)) in
  Ok (Ko, zip_with (fun k2 ko : npfloat F => sub (of_Z 1) (div k2 (square ko))) Kc2 Ko).

(** [bct.participation_coef(W, ci, degree='undirected')]: the coefficient
    with [P = 0] wherever [Ko] is falsy. *)
Definition participation_coef (W : matrix F) (ci : list Z) : result (list (npfloat F)) :=
  '(Ko, P) ← pc_core W ci;
  Ok (zip_with (fun ko p : npfloat F => if nonzero ko then p else of_Z 0) Ko P).

(** [np.argwhere(np.isnan(v))] *)
Definition argwhere_nan (v : list (npfloat F)) : list nat :=
  filter (fun i => from_option isnan false (v !! i) = true) (seq 0 (length v)).

(** [v[mask] = nan] *)
Definition set_nan (mask : list nat) (v : list (npfloat F)) : list (npfloat F) :=
  foldr (fun i acc => <[i := NaN]> acc) v mask.

(** *** Percentiles *)

Definition count_if {A : Type} (p : A -> bool) (l : list A) : Z :=
  Z.of_nat (length (filter (fun x => p x = true) l)).

(** [scipy.stats.percentileofscore(a, score)], kind ['rank']. *)
Definition percentileofscore (a : list (npfloat F)) (score : npfloat F) : npfloat F :=
  if isnan score then NaN
  else if (length a =? 0)%nat then of_Z 100
  else
    let left := count_if (fun x : npfloat F => ltb x score) a in
    let right := count_if (fun x : npfloat F => leb x score) a in
    let plus1 := if left <? right then 1 else 0 in
    div (mul (of_Z (right + left + plus1)) (of_Z 50)) (of_Z (Z.of_nat (length a))).

(** [bct.degrees_und]: the column sums of the binarised matrix. *)
Definition degrees_und (W : matrix F) : list Z :=
  match nonzero_mask W with
  | [] => []
  | r :: rest => foldr (zip_with Z.add) (replicate (length r) 0) (r :: rest)
  end.

(** [np.percentile(degs, 25)], linear interpolation between the two
    closest ranks. *)
Definition percentile25 (degs : list Z) : result (npfloat F) :=
  let s := Py.sorted (fun d => d) degs in
  let n := Z.of_nat (length s) in
  let lo := Z.to_nat ((n - 1) / 4) in
  let hi := Nat.min (lo + 1) (length s - 1) in
  match s !! lo, s !! hi with
  | Some a, Some b =>
      Ok (add (of_Z a)
              (mul (of_Z (b - a)) (div (of_Z ((n - 1) mod 4)) (of_Z 4))))
  | _, _ => Raise IndexError
  end.

(** *** run_pc_steps, one threshold

    From the upper triangle of the thresholded matrix and the affiliation
    vector to [cens_PC_perc_wnan], the vector written to
    [<subid>_<thr>_CENS_PC_PERC.txt]. *)
Definition PC_percs_of (PC_nonans : list (npfloat F)) : list (npfloat F) :=
  (fun i : npfloat F => percentileofscore PC_nonans i) <$> PC_nonans.

Definition deg_mult_of (degs : list Z) (low : npfloat F) : list Z :=
  (fun d : Z => if ltb (of_Z d) low then 0 else 1) <$> degs.

Definition zeros_to_nan (v : list (npfloat F)) : list (npfloat F) :=
  (fun x : npfloat F => if eqb x (of_Z 0) then NaN else x) <$> v.

Definition pc_threshold_step (pc_thresh_mat : matrix F) (aff_vect : list Z)
  : result (list (npfloat F)) :=
  let pc_upper_mat := triu1 pc_thresh_mat in
  PC_nonans ← participation_coef pc_upper_mat aff_vect;
  '(_, PC_wnans) ← pc_core pc_upper_mat aff_vect;
  let PC_nan_mask := argwhere_nan PC_wnans in
  let PC_percs := PC_percs_of PC_nonans in
  let degs := degrees_und pc_upper_mat in
  low ← percentile25 degs;
  let deg_mult := deg_mult_of degs low in
  let deg_cens_PC_percs := zip_with (fun (p : npfloat F) (m : Z) => mul p (of_Z m)) PC_percs deg_mult in
  let deg_cens_PC_percs := zeros_to_nan deg_cens_PC_percs in
  Ok (set_nan PC_nan_mask deg_cens_PC_percs).

(** *** The average over the thresholds *)

(** [np.nanmean] of one column: NaN counts as 0 in the total and is left
    out of the count; an all-NaN column is 0/0. *)
Definition nanmean (col : list (npfloat F)) : npfloat F :=
  let arr := (fun x : npfloat F => if isnan x then of_Z 0 else x) <$> col in
  let cnt := count_if (fun x : npfloat F => negb (isnan x)) col in
  div (sum arr) (of_Z cnt).

(** The columns of a stack of equally long rows. *)
Definition columns (rows : matrix F) : matrix F :=
  match rows with
  | [] => []
  | r :: _ => (fun j => omap (fun row : list (npfloat F) => row !! j) rows) <$> seq 0 (length r)
  end.

(** [np.nan_to_num(np.nanmean(allPC_percs_wnans, axis=0))] *)
Definition avg_PC_perc (allPC_percs_wnans : matrix F) : list (npfloat F) :=
  nan_to_num <$> (nanmean <$> columns allPC_percs_wnans).

(** *** label_hubs: the list written to [<subid>_HUB_INDICES.txt] *)

Definition final_avg_perc_vect (avg_vect : list (npfloat F)) : list (npfloat F) :=
  (fun i : npfloat F => percentileofscore avg_vect i) <$> avg_vect.

(** [np.where(v < 80, 0, v)] *)
Definition cens_avg_vect (v : list (npfloat F)) : list (npfloat F) :=
  (fun x : npfloat F => if ltb x (of_Z 80) then of_Z 0 else x) <$> v.

(** [np.nonzero(v)[0]] *)
Definition np_nonzero (v : list (npfloat F)) : list nat :=
  filter (fun i => from_option nonzero false (v !! i) = true) (seq 0 (length v)).

Definition label_hubs (avg_vect : list (npfloat F)) : list Z :=
  let hub_indices := np_nonzero (cens_avg_vect (final_avg_perc_vect avg_vect)) in
  (fun i => Z.of_nat i + 1) <$> hub_indices.

(** *** run_pc_steps

    [threshold_proportional] is [bct.threshold_proportional]; the file of
    affiliation labels of a threshold is given as what [np.loadtxt] makes
    of it.  The result is the twelve vectors written to the
    [CENS_PC_PERC] files and the averaged vector written to
    [<subid>_FINAL_AVG_PC_PERCENTAGE.txt]. *)
Definition threshold_list : list Qc :=
  Q2Qc <$> [3 # 1000; 4 # 1000; 5 # 1000; 1 # 100; 15 # 1000; 2 # 100;
            25 # 1000; 3 # 100; 35 # 1000; 4 # 100; 45 # 1000; 5 # 100]%Q.

Variable threshold_proportional : matrix F -> Qc -> matrix F.

Definition run_pc_steps (orig_dist_censored_zmat : matrix F)
    (aff_vect_of : Qc -> result (list Z))
  : result (matrix F * list (npfloat F)) :=
  all_thresh_PCs_list ←
    for_each
      (fun thr =>
         let pc_thresh_mat := threshold_proportional orig_dist_censored_zmat thr in
         aff_vect ← aff_vect_of thr;
         pc_threshold_step pc_thresh_mat aff_vect)
      threshold_list;
  Ok (all_thresh_PCs_list, avg_PC_perc all_thresh_PCs_list).

(** *** run_infomap, the loop over the thresholds

    Every thresholded matrix is checked with [np.isnan(np.sum(thresh_mat))]
    before it goes to networkx and infomap; the result is the matrices
    handed on. *)
Definition check_nan (thresh_mat : matrix F) : bool :=
  isnan (sum (concat thresh_mat)).

Definition nan_found : exn := SystemExit "NaN found. This is not right! Exiting...".

Definition run_infomap_matrices (ready_zmat : matrix F) : result (list (matrix F)) :=
  for_each
    (fun thresh =>
       let thresh_mat := threshold_proportional ready_zmat thresh in
       if check_nan thresh_mat then Raise nan_found else Ok thresh_mat)
    threshold_list.

End Stages.

(** *** run_infomap, cleaning the .clu files

    A line with a [#] is a comment; any other line gives the pair of its
    first two fields.  The pairs are ordered by node and written to the
    reference file (node and community) and to the affiliation vector
    (community only). *)
Definition parse_clu_line (line : string) : result (option (Z * Z)) :=
  let stripped_line := Py.strip line in
  if Py.contains_char "#" stripped_line then Ok None
  else
    let sl := Py.split " " stripped_line in
    s0 ← Py.getitem sl 0;
    node ← Py.int s0;
    s1 ← Py.getitem sl 1;
    community ← Py.int s1;
    Ok (Some (node, community)).

Definition read_clu (content : string) : result (list (Z * Z)) :=
  tups ← for_each parse_clu_line (Py.readlines content);
  Ok (omap (fun t : option (Z * Z) => t) (tups : list (option (Z * Z)))).

Definition aff_ref_line (c : Z * Z) : string :=
  Py.join " " [Py.str_int c.1; Py.str_int c.2; Py.newline].

Definition aff_vect_line (c : Z * Z) : string :=
  Py.join " " [Py.str_int c.2; Py.newline].

Definition clean_clu (content : string) : result (string * string) :=
  clu_tup ← read_clu content;
  let s_tups := Py.sorted fst clu_tup in
  Ok (Py.written (aff_ref_line <$> s_tups), Py.written (aff_vect_line <$> s_tups)).

(** *** label_hubs: the file of hub indices *)
Definition hub_indices_line (hi : Z) : string :=
  Py.join " " [Py.str_int hi; Py.newline].

Definition hub_indices_file (hub_list : list Z) : string :=
  Py.written (hub_indices_line <$> hub_list).

End Hubs.
(** ** Create_Hub_Profiles.py *)

Module Profiles.
Import Np.

(** The parcels of the thirteen networks, counted from 0. *)
Definition aud : list Z :=
  [9; 63; 64; 65; 66; 67; 68; 69; 76; 101; 103; 159; 170; 223; 226; 229;
   231; 232; 238; 243; 267; 268; 328; 329].

Definition co : list Z :=
  [20; 21; 26; 27; 33; 39; 62; 70; 71; 75; 80; 81; 83; 100; 102; 104;
   110; 111; 146; 152; 179; 180; 184; 186; 187; 191; 195; 197; 218; 222;
   233; 234; 237; 244; 245; 247; 248; 273; 316; 317].

Definition cp : list Z :=
  [11; 88; 92; 172; 253].

Definition dmn : list Z :=
  [0; 3; 5; 24; 25; 43; 93; 113; 115; 116; 125; 126; 144; 145; 149; 150;
   151; 153; 155; 156; 161; 164; 183; 185; 199; 219; 224; 256; 258; 277;
   278; 289; 314; 315; 320; 321; 322; 323; 324; 325; 330].

Definition da : list Z :=
  [40; 41; 42; 48; 50; 51; 54; 73; 86; 87; 90; 91; 94; 99; 105; 106;
   109; 112; 154; 188; 198; 202; 207; 210; 235; 249; 251; 252; 261; 265;
   270; 274].

Definition fp : list Z :=
  [6; 8; 23; 77; 95; 107; 108; 147; 148; 166; 167; 169; 181; 239; 259;
   260; 271; 272; 275; 276; 318; 319; 326; 327].

Definition none_net : list Z :=
  [10; 17; 18; 72; 114; 117; 118; 119; 120; 121; 122; 123; 124; 127;
   128; 132; 133; 134; 141; 143; 158; 171; 177; 178; 279; 280; 281; 282;
   283; 284; 285; 286; 287; 288; 290; 291; 295; 296; 299; 300; 301; 302;
   303; 304; 305; 311; 313].

Definition ret : list Z :=
  [12; 13; 129; 142; 173; 293; 294; 312].

Definition sal : list Z :=
  [28; 82; 182; 246].

Definition ssmh : list Z :=
  [1; 29; 30; 31; 32; 34; 35; 36; 37; 44; 45; 46; 47; 49; 53; 55; 56;
   57; 162; 189; 190; 192; 193; 194; 200; 201; 203; 204; 205; 206; 208;
   209; 212; 213; 214; 215; 216; 269].

Definition ssmm : list Z :=
  [2; 38; 52; 58; 163; 196; 211; 217].

Definition va : list Z :=
  [22; 59; 60; 61; 74; 78; 79; 84; 85; 157; 160; 220; 221; 225; 227;
   228; 230; 236; 240; 241; 242; 331; 332].

Definition vis : list Z :=
  [4; 7; 14; 15; 16; 19; 89; 96; 97; 98; 130; 131; 135; 136; 137; 138;
   139; 140; 165; 168; 174; 175; 176; 250; 254; 255; 257; 262; 263; 264;
   266; 292; 297; 298; 306; 307; 308; 309; 310].

Definition networks : list (list Z) :=
  [aud; co; cp; dmn; da; fp; none_net; ret; sal; ssmh; ssmm; va; vis].

Section Profile.
Context {F : Type} `{Carrier F}.

(** [zmat.loc[hi, :].values.tolist()] on a frame read without header: the
    row of label [hi]. *)
Definition loc (zmat : matrix F) (hi : Z) : result (list (npfloat F)) :=
  if (0 <=? hi) && (hi <? Z.of_nat (length zmat))
  then of_option (KeyError hi) (zmat !! Z.to_nat hi)
  else Raise (KeyError hi).

(** [x == 1.0] *)
Definition is_one (x : npfloat F) : bool := eqb x (of_Z 1).

(** [np.mean] of a list: NaN for the empty list. *)
Definition mean (l : list (npfloat F)) : npfloat F :=
  div (sum l) (of_Z (Z.of_nat (length l))).

Definition self_corr_exit : exn :=
  SystemExit "Something went wrong removing the self-corr value. Exiting...".

(** The body of the loop of create_profiles for one hub, up to the
    thirteen averages (before they are rounded and written). *)
Definition hub_profile (zmat : matrix F) (hi : Z) : result (list (npfloat F)) :=
  let hi := hi - 1 in
  all_hub_conns ← loc zmat hi;
  net_conns ← for_each (fun net => for_each (Py.getitem all_hub_conns) net) networks;
  let corr_removed :=
    Z.of_nat (length (filter (fun nc => existsb is_one nc = true) net_conns)) in
  let net_conns :=
    (fun nc : list (npfloat F) =>
       if existsb is_one nc then Py.remove_first is_one nc else nc) <$> net_conns in
  if corr_removed =? 1 then Ok (mean <$> net_conns) else Raise self_corr_exit.

Definition create_profiles (zmat : matrix F) (hub_indices : list Z)
  : result (list (list (npfloat F))) :=
  for_each (hub_profile zmat) hub_indices.

End Profile.

(** The script entry reads the hub indices of a subject: every line is
    stripped and converted with [int]. *)
Definition read_hub_indices (content : string) : result (list Z) :=
  for_each Py.int (Py.strip <$> Py.readlines content).

End Profiles.

(** ** Facts about Hub_Density_Map.py *)

Module DensityFacts.
Import Density.

Lemma elem_of_range (a b x : Z) : x ∈ Py.range a b ↔ a ≤ x < b.
Proof.
  unfold Py.range. rewrite list_elem_of_fmap. split.
  - intros (k & -> & Hk). apply elem_of_seq in Hk. lia.
  - intros H. exists (Z.to_nat (x - a)). split; [lia|].
    apply elem_of_seq. lia.
Qed.

Lemma NoDup_range (a b : Z) : NoDup (Py.range a b).
Proof.
  unfold Py.range. apply NoDup_fmap_2; [|apply NoDup_seq].
  intros i j H. lia.
Qed.

Lemma lookup_range (a b : Z) (i : nat) :
  (i < Z.to_nat (b - a))%nat → Py.range a b !! i = Some (a + Z.of_nat i).
Proof.
  intros H. unfold Py.range. rewrite list_lookup_fmap, lookup_seq_lt by done.
  reflexivity.
Qed.

Lemma length_range (a b : Z) : length (Py.range a b) = Z.to_nat (b - a).
Proof. unfold Py.range. by rewrite length_fmap, length_seq. Qed.

(** [d] holds the count [c p] for every parcel [p] of 1..333 and has no
    other key. *)
Definition counts_ok (d : gmap Z Z) (c : Z → Z) : Prop :=
  ∀ p, d !! p = if decide (1 ≤ p ≤ 333) then Some (c p) else None.

Lemma hub_counts_dict_ok : counts_ok hub_counts_dict (fun _ => 0).
Proof.
  intros p. unfold hub_counts_dict. case_decide as Hp.
  - apply elem_of_list_to_map_1.
    + rewrite <- list_fmap_compose. rewrite (list_fmap_ext _ id (Py.range 1 334)) by done.
      rewrite list_fmap_id. apply NoDup_range.
    + apply list_elem_of_fmap. exists p. split; [done|]. apply elem_of_range. lia.
  - apply not_elem_of_list_to_map_1.
    rewrite <- list_fmap_compose. rewrite (list_fmap_ext _ id (Py.range 1 334)) by done.
    rewrite list_fmap_id. rewrite elem_of_range. lia.
Qed.

Lemma occurrences_nil p : occurrences p [] = 0.
Proof. reflexivity. Qed.

Lemma occurrences_cons p h l :
  occurrences p (h :: l) = (if decide (h = p) then 1 else 0) + occurrences p l.
Proof.
  unfold occurrences. rewrite filter_cons. case_decide; simpl length; lia.
Qed.

Lemma occurrences_app p l1 l2 :
  occurrences p (l1 ++ l2) = occurrences p l1 + occurrences p l2.
Proof. unfold occurrences. rewrite filter_app, length_app. lia. Qed.

Lemma bump_ok d c h :
  counts_ok d c → 1 ≤ h ≤ 333 →
  ∃ d', bump d h = Ok d' ∧
        counts_ok d' (fun p => c p + if decide (h = p) then 1 else 0).
Proof.
  intros Hd Hh. unfold bump. pose proof (Hd h) as Hl.
  rewrite decide_True in Hl by done. rewrite Hl. simpl.
  eexists. split; [reflexivity|]. intros p.
  destruct (decide (h = p)) as [->|Hne].
  - rewrite lookup_insert_eq, decide_True by done. reflexivity.
  - rewrite lookup_insert_ne by done. rewrite Hd.
    case_decide; [f_equal; lia | done].
Qed.

Lemma fold_bump_ok hs : ∀ d c,
  counts_ok d c → Forall (fun h => 1 ≤ h ≤ 333) hs →
  ∃ d', fold_result bump d hs = Ok d' ∧
        counts_ok d' (fun p => c p + occurrences p hs).
Proof.
  induction hs as [|h hs IH]; intros d c Hd Hall.
  - exists d. split; [done|]. intros p. rewrite Hd, occurrences_nil.
    case_decide; [f_equal; lia | done].
  - inversion Hall as [|? ? Hh Hrest]; subst.
    destruct (bump_ok d c h Hd Hh) as (d1 & Hb & Hd1).
    destruct (IH d1 _ Hd1 Hrest) as (d2 & Hf & Hd2).
    exists d2. split.
    + simpl. rewrite Hb. exact Hf.
    + intros p. rewrite Hd2, occurrences_cons.
      case_decide; [f_equal; lia | done].
Qed.

Lemma for_each_cons_ok {A B} (f : A → result B) a l bs :
  for_each f (a :: l) = Ok bs →
  ∃ b bs', f a = Ok b ∧ for_each f l = Ok bs' ∧ bs = b :: bs'.
Proof.
  simpl. destruct (f a) as [b|e]; [|discriminate]. simpl.
  destruct (for_each f l) as [bs'|e]; [|discriminate]. simpl.
  intros [= <-]. eauto.
Qed.

Lemma populate_ok files : ∀ parsed d c,
  for_each read_indices files = Ok parsed →
  (∀ l h, l ∈ parsed → h ∈ l → 1 ≤ h ≤ 333) →
  counts_ok d c →
  ∃ d', fold_result populate_file d files = Ok d' ∧
        counts_ok d' (fun p => c p + occurrences p (concat parsed)).
Proof.
  induction files as [|f files IH]; intros parsed d c Hp Hr Hd.
  - injection Hp as <-. exists d. split; [done|]. intros p.
    rewrite Hd. simpl. rewrite occurrences_nil.
    case_decide; [f_equal; lia | done].
  - apply for_each_cons_ok in Hp as (hs & parsed' & Hf & Hrest & ->).
    destruct (fold_bump_ok hs d c Hd) as (d1 & Hb & Hd1).
    { apply Forall_forall. intros h Hh. apply (Hr hs h); [left | done]. }
    destruct (IH parsed' d1 (fun p => c p + occurrences p hs) Hrest) as (d2 & Hf2 & Hd2);
      [|exact Hd1|].
    { intros l h Hl Hh. apply (Hr l h); [by right | done]. }
    exists d2. split.
    + cbn [fold_result].
      assert (Hpf : populate_file d f = Ok d1).
      { unfold populate_file. rewrite Hf. exact Hb. }
      rewrite Hpf. exact Hf2.
    + intros p. rewrite Hd2. simpl. rewrite occurrences_app.
      case_decide; [f_equal; lia | done].
Qed.

Lemma the_vect_ok d c :
  counts_ok d c → the_vect d = Ok (c <$> Py.range 1 334).
Proof.
  intros Hd. unfold the_vect.
  assert (Hin : Forall (fun h => 1 ≤ h ≤ 333) (Py.range 1 334)).
  { apply Forall_forall. intros h Hh. apply elem_of_range in Hh. lia. }
  induction Hin as [|h l Hh _ IH]; [done|].
  simpl. rewrite Hd, decide_True by done. simpl. rewrite IH. reflexivity.
Qed.

Lemma occurrences_NoDup p l :
  NoDup l → occurrences p l = if decide (p ∈ l) then 1 else 0.
Proof.
  induction 1 as [|h l Hnotin _ IH].
  - rewrite occurrences_nil. by rewrite decide_False by apply not_elem_of_nil.
  - rewrite occurrences_cons, IH. destruct (decide (h = p)) as [<-|Hne].
    + rewrite decide_False by done. rewrite decide_True by (apply list_elem_of_here). lia.
    + destruct (decide (p ∈ l)) as [Hin|Hnin].
      * rewrite decide_True by (by right). lia.
      * rewrite decide_False; [lia|]. rewrite elem_of_cons. intros [Heq|Hin]; [by apply Hne|by apply Hnin].
Qed.

Lemma occurrences_concat_NoDup p ls :
  Forall NoDup ls → occurrences p (concat ls) = files_containing p ls.
Proof.
  unfold files_containing. induction 1 as [|l ls Hl _ IH]; [done|].
  simpl concat. rewrite occurrences_app, IH, occurrences_NoDup by done.
  rewrite filter_cons. case_decide; simpl length; lia.
Qed.

(** C9, as amended: for index files whose entries all lie in 1..333, the
    aggregator returns a vector of 333 counts in parcel order; entry [p] is
    the number of occurrences of parcel [p] over all files, which is the
    number of files that contain [p] whenever no file lists a parcel twice. *)
Theorem density_counts_occurrences (files : list (list string)) (parsed : list (list Z)) :
  for_each read_indices files = Ok parsed →
  (∀ l h, l ∈ parsed → h ∈ l → 1 ≤ h ≤ 333) →
  ∃ vect, main files = Ok vect ∧ length vect = 333%nat ∧
    ∀ p, 1 ≤ p ≤ 333 →
      vect !! Z.to_nat (p - 1) = Some (occurrences p (concat parsed)) ∧
      (Forall NoDup parsed → occurrences p (concat parsed) = files_containing p parsed).
Proof.
  intros Hp Hr.
  destruct (populate_ok files parsed _ _ Hp Hr hub_counts_dict_ok) as (d & Hf & Hd).
  exists ((fun p => 0 + occurrences p (concat parsed)) <$> Py.range 1 334).
  split; [|split].
  - unfold main. rewrite Hf. exact (the_vect_ok d _ Hd).
  - rewrite length_fmap, length_range. reflexivity.
  - intros p Hpr. split.
    + rewrite list_lookup_fmap, lookup_range by lia. simpl. f_equal.
      replace (1 + Z.of_nat (Z.to_nat (p - 1))) with p by lia. lia.
    + apply occurrences_concat_NoDup.
Qed.

(** The three subjects of the scenario: hub sets {5,10}, {5} and {}. *)
Definition scenario_files : list (list string) :=
  [ ["5 " +:+ "
"; "10 " +:+ "
"]; ["5 " +:+ "
"]; [] ].

Lemma scenario_counts :
  main scenario_files = Ok (<[4%nat := 2]> (<[9%nat := 1]> (replicate 333 0))).
Proof. vm_compute. reflexivity. Qed.

Lemma density_counts_occurrences_witness :
  ∃ vect, main scenario_files = Ok vect ∧ length vect = 333%nat ∧
    ∀ p, 1 ≤ p ≤ 333 →
      vect !! Z.to_nat (p - 1) = Some (occurrences p (concat [[5; 10]; [5]; []])) ∧
      (Forall NoDup [[5; 10]; [5]; []] →
       occurrences p (concat [[5; 10]; [5]; []]) = files_containing p [[5; 10]; [5]; []]).
Proof.
  apply (density_counts_occurrences scenario_files [[5; 10]; [5]; []]).
  - vm_compute. reflexivity.
  - intros l h Hl Hh.
    repeat (apply elem_of_cons in Hl as [->|Hl]);
      repeat (apply elem_of_cons in Hh as [->|Hh]);
      try lia; try (by apply elem_of_nil in Hh); by apply elem_of_nil in Hl.
Defined.

Lemma Ok_inj {A : Type} (a b : A) : Ok a = Ok b → a = b.
Proof. intros H. by injection H. Qed.

Lemma twice_listed_main :
  main [["5"; "5"]] = Ok (<[4%nat := 2]> (replicate 333 0)).
Proof. vm_compute. reflexivity. Qed.

(** A file that lists parcel 5 twice: the count of parcel 5 is 2, the
    number of files containing it is 1. *)
Lemma density_counts_files_counterexample :
  ¬ (∀ (files : list (list string)) (parsed : list (list Z)),
       for_each read_indices files = Ok parsed →
       (∀ l h, l ∈ parsed → h ∈ l → 1 ≤ h ≤ 333) →
       ∃ vect, main files = Ok vect ∧ length vect = 333%nat ∧
         ∀ p, 1 ≤ p ≤ 333 →
           vect !! Z.to_nat (p - 1) = Some (files_containing p parsed)).
Proof.
  intros H.
  destruct (H [["5"; "5"]] [[5; 5]]) as (vect & Hm & _ & Hv).
  - vm_compute. reflexivity.
  - intros l h Hl Hh. apply list_elem_of_singleton in Hl as ->.
    repeat (apply elem_of_cons in Hh as [->|Hh]); try lia. by apply elem_of_nil in Hh.
  - rewrite twice_listed_main in Hm. apply Ok_inj in Hm. subst vect.
    assert (H5 : 1 ≤ 5 ≤ 333) by lia.
    apply Hv in H5.
    assert (Hl : <[4%nat := 2]> (replicate 333 0) !! Z.to_nat (5 - 1) = Some 2)
      by (vm_compute; reflexivity).
    assert (Hc : files_containing 5 [[5; 5]] = 1) by (vm_compute; reflexivity).
    rewrite Hl, Hc in H5. discriminate.
Qed.

End DensityFacts.

(** ** Facts about the numbers *)

Module NpFacts.
Import Np.

Lemma cmp_ofZ (a b : Z) : c_cmp (c_ofZ (F:=Qc) a) (c_ofZ b) = (a ?= b)%Z.
Proof.
  cbn. unfold Qccompare, Qcompare. cbn. by rewrite !Z.mul_1_r.
Qed.

Lemma cmp_antisym (x y : Qc) : c_cmp y x = CompOpp (c_cmp x y).
Proof. cbn. unfold Qccompare. symmetry. apply Qcompare_antisym. Qed.

Lemma cmp_refl (x : Qc) : c_cmp x x = Eq.
Proof. cbn. by apply Qceq_alt. Qed.

Lemma cmp_eq (x y : Qc) : c_cmp x y = Eq ↔ x = y.
Proof. cbn. symmetry. apply Qceq_alt. Qed.

Lemma cmp_lt (x y : Qc) : c_cmp x y = Lt ↔ (x < y)%Qc.
Proof. cbn. symmetry. apply Qclt_alt. Qed.

Lemma cmp_gt (x y : Qc) : c_cmp x y = Gt ↔ (y < x)%Qc.
Proof. cbn. symmetry. apply Qcgt_alt. Qed.

Lemma ofZ_add (a b : Z) : c_add (c_ofZ (F:=Qc) a) (c_ofZ b) = c_ofZ (a + b).
Proof.
  apply Qc_is_canon. cbn. rewrite Qred_correct.
  unfold Qeq, Qplus, inject_Z. cbn. lia.
Qed.

Lemma ofZ_mul (a b : Z) : c_mul (c_ofZ (F:=Qc) a) (c_ofZ b) = c_ofZ (a * b).
Proof.
  apply Qc_is_canon. cbn. rewrite Qred_correct.
  unfold Qeq, Qmult, inject_Z. cbn. lia.
Qed.

Lemma ofZ_0 : c_ofZ (F:=Qc) 0 = 0%Qc.
Proof. by apply Qc_is_canon. Qed.

Lemma ofZ_1 : c_ofZ (F:=Qc) 1 = 1%Qc.
Proof. by apply Qc_is_canon. Qed.

Lemma mul_ofZ_0 (q : Qc) : c_mul q (c_ofZ 0) = c_ofZ 0.
Proof. rewrite ofZ_0. apply Qcmult_0_r. Qed.

Lemma mul_ofZ_1 (q : Qc) : c_mul q (c_ofZ 1) = q.
Proof. rewrite ofZ_1. apply Qcmult_1_r. Qed.

Lemma sign_ofZ (n : Z) : sign (c_ofZ (F:=Qc) n) = (n ?= 0)%Z.
Proof. apply cmp_ofZ. Qed.

(** Comparing a quotient of integers with an integer. *)
Lemma cmp_div_ofZ (a n b : Z) :
  0 < n →
  c_cmp (c_div (c_ofZ (F:=Qc) a) (c_ofZ n)) (c_ofZ b) = (a ?= b * n)%Z.
Proof.
  intros Hn. cbn. unfold Qccompare, Qcdiv, Qcmult, Qcinv. cbn [this Q2Qc].
  rewrite !Qred_correct.
  destruct n as [|pn|pn]; try lia.
  unfold Qcompare, Qinv, Qmult, inject_Z. cbn.
  rewrite ?Z.mul_1_r, ?Pos.mul_1_l. reflexivity.
Qed.

Lemma leb_refl (x : npfloat Qc) : isnan x = false → leb x x = true.
Proof.
  destruct x as [|[]|q]; try done. intros _. unfold leb, compare. by rewrite cmp_refl.
Qed.

Lemma ltb_leb (x y : npfloat Qc) : ltb x y = true → leb x y = true.
Proof. unfold ltb, leb. by destruct (compare x y) as [[]|]. Qed.

Lemma nan_to_num_not_nan (x : npfloat Qc) : isnan (nan_to_num x) = false.
Proof. by destruct x. Qed.

Lemma nan_to_num_finite (x : npfloat Qc) : isfinite (nan_to_num x) = true.
Proof. by destruct x. Qed.

Lemma isnan_add (a b : npfloat Qc) :
  isnan a = true ∨ isnan b = true → isnan (add a b) = true.
Proof. destruct a, b; cbn; intros [?|?]; done. Qed.

Lemma add_0_l (a : npfloat Qc) : add (of_Z 0) a = a.
Proof.
  destruct a; try done. cbn. f_equal. apply Qcplus_0_l.
Qed.

Lemma add_0_r (a : npfloat Qc) : add a (of_Z 0) = a.
Proof.
  destruct a; try done. cbn. f_equal. apply Qcplus_0_r.
Qed.

Lemma sum_cons (x : npfloat Qc) (l : list (npfloat Qc)) : sum (x :: l) = add x (sum l).
Proof. reflexivity. Qed.

(** A sum is NaN as soon as one term is. *)
Lemma isnan_sum (l : list (npfloat Qc)) :
  Exists (fun x => isnan x = true) l → isnan (sum l) = true.
Proof.
  induction 1 as [x l Hx|x l _ IH]; cbn; apply isnan_add; auto.
Qed.

(** A sum of finite numbers is the finite sum. *)
Fixpoint Qsum (l : list Qc) : Qc :=
  match l with
  | [] => c_ofZ 0
  | x :: r => (x + Qsum r)%Qc
  end.

Lemma sum_Num (l : list Qc) : sum (Num <$> l) = Num (Qsum l).
Proof.
  induction l as [|x l IH]; [done|].
  by rewrite fmap_cons, sum_cons, IH.
Qed.

End NpFacts.

(** ** Facts about percentileofscore *)

Module PercentileFacts.
Import Np Hubs NpFacts.

Lemma length_filter_impl {A : Type} (P Q : A → Prop)
    `{∀ x, Decision (P x)} `{∀ x, Decision (Q x)} (l : list A) :
  (∀ x, P x → Q x) → (length (filter P l) ≤ length (filter Q l))%nat.
Proof.
  intros HPQ. induction l as [|x l IH]; [done|].
  rewrite !filter_cons. destruct (decide (P x)) as [HP|HP].
  - rewrite decide_True by auto. cbn. lia.
  - case_decide; cbn; lia.
Qed.

Lemma count_if_le_length {A : Type} (p : A → bool) (l : list A) :
  0 ≤ count_if p l ≤ Z.of_nat (length l).
Proof. unfold count_if. pose proof (length_filter (fun x => p x = true) l). lia. Qed.

Lemma count_if_mono {A : Type} (p q : A → bool) (l : list A) :
  (∀ x, p x = true → q x = true) → count_if p l ≤ count_if q l.
Proof.
  intros Hpq. unfold count_if. apply inj_le.
  by apply length_filter_impl.
Qed.

Lemma count_if_pos {A : Type} (p : A → bool) (l : list A) (x : A) :
  x ∈ l → p x = true → 1 ≤ count_if p l.
Proof.
  intros Hx Hp. unfold count_if.
  assert (Hin : x ∈ filter (fun x => p x = true) l) by (by apply list_elem_of_filter).
  destruct (filter _ l); [by inversion Hin|cbn; lia].
Qed.

(** The rank counts of a score that occurs in the vector. *)
Lemma rank_counts (a : list (npfloat Qc)) (score : npfloat Qc) :
  isnan score = false → score ∈ a →
  let left := count_if (fun x : npfloat Qc => ltb x score) a in
  let right := count_if (fun x : npfloat Qc => leb x score) a in
  let k := right + left + (if left <? right then 1 else 0) in
  1 ≤ k ≤ 2 * Z.of_nat (length a).
Proof.
  intros Hs Hin left right k.
  pose proof (count_if_le_length (fun x : npfloat Qc => ltb x score) a) as Hl.
  pose proof (count_if_le_length (fun x : npfloat Qc => leb x score) a) as Hr.
  pose proof (count_if_pos (fun x : npfloat Qc => leb x score) a score Hin (leb_refl _ Hs)) as H1.
  fold left in Hl. fold right in Hr, H1. unfold k.
  destruct (left <? right) eqn:Hlt.
  - apply Z.ltb_lt in Hlt. lia.
  - apply Z.ltb_ge in Hlt. lia.
Qed.

(** The percentile of a score that occurs in the vector is a number in
    (0, 100]. *)
Lemma percentileofscore_range (a : list (npfloat Qc)) (score : npfloat Qc) :
  isnan score = false → score ∈ a →
  ∃ q, percentileofscore a score = Num q ∧
       c_cmp q (c_ofZ 0) = Gt ∧ c_cmp q (c_ofZ 100) ≠ Gt.
Proof.
  intros Hs Hin. pose proof (rank_counts a score Hs Hin) as Hk. cbn zeta in Hk.
  unfold percentileofscore. rewrite Hs.
  destruct a as [|x a']; [by inversion Hin|]. cbn [length Nat.eqb].
  set (n := Z.of_nat (S (length a'))) in *.
  assert (Hn : 0 < n) by (unfold n; lia).
  set (k := _ + _ + _) in *.
  unfold of_Z, mul, div. rewrite sign_ofZ, ofZ_mul.
  replace (n ?= 0) with Gt by (symmetry; apply Z.compare_gt_iff; lia).
  eexists. split; [reflexivity|]. rewrite !cmp_div_ofZ by done. split.
  - apply Z.compare_gt_iff. lia.
  - apply Z.compare_le_iff. cbn [length] in Hk. fold n in Hk. lia.
Qed.

End PercentileFacts.

(** ** Facts about label_hubs *)

Module LabelFacts.
Import Np Hubs NpFacts.

(** The claim's words: parcel [i] is flagged when its re-percentiled score
    is at least 80, and the hub list holds the flagged indices plus one. *)
Definition flagged (percs : list (npfloat Qc)) (i : nat) : bool :=
  from_option (leb (of_Z 80)) false (percs !! i).

Definition hubs_at_least_80 (avg_vect : list (npfloat Qc)) : list Z :=
  (fun i => Z.of_nat i + 1) <$>
    filter (fun i => flagged (final_avg_perc_vect avg_vect) i = true)
           (seq 0 (length avg_vect)).

Lemma filter_ext_in {A : Type} (P Q : A → Prop)
    `{∀ x, Decision (P x)} `{∀ x, Decision (Q x)} (l : list A) :
  (∀ x, x ∈ l → P x ↔ Q x) → filter P l = filter Q l.
Proof.
  induction l as [|a l IH]; intros Hext; [done|].
  rewrite !filter_cons. rewrite IH by (intros x Hx; apply Hext; by right).
  destruct (decide (P a)) as [HP|HP], (decide (Q a)) as [HQ|HQ]; try done.
  - exfalso. apply HQ, Hext; [left|done].
  - exfalso. apply HP, Hext; [left|done].
Qed.

(** The percentile of a score that is not NaN in a non-empty vector is a
    finite number. *)
Lemma percentileofscore_Num (a : list (npfloat Qc)) (score : npfloat Qc) :
  isnan score = false → a ≠ [] →
  ∃ q, percentileofscore a score = Num q.
Proof.
  intros Hs Ha. unfold percentileofscore. rewrite Hs.
  destruct a as [|x a]; [done|]. cbn [length Nat.eqb].
  unfold of_Z, mul, div. rewrite sign_ofZ.
  replace (Z.of_nat (S (length a)) ?= 0) with Gt by (symmetry; apply Z.compare_gt_iff; lia).
  eauto.
Qed.

Lemma final_avg_perc_vect_not_nan (avg_vect : list (npfloat Qc)) :
  Forall (fun x => isnan x = false) avg_vect →
  Forall (fun x => isnan x = false) (final_avg_perc_vect avg_vect).
Proof.
  intros Hall. unfold final_avg_perc_vect. apply Forall_fmap, Forall_forall.
  intros x Hx. cbn.
  destruct (percentileofscore_Num avg_vect x) as [q ->]; [|by intros ->; inversion Hx|done].
  by eapply Forall_forall in Hall.
Qed.

(** [np.where(x < 80, 0, x)] is non-zero exactly when [80 <= x]. *)
Lemma cens_nonzero (x : npfloat Qc) :
  isnan x = false →
  nonzero (if ltb x (of_Z 80) then of_Z 0 else x) = leb (of_Z 80) x.
Proof.
  intros Hx. destruct x as [|[]|q]; try done.
  unfold ltb, leb, nonzero, eqb, of_Z, compare.
    rewrite (cmp_antisym q (c_ofZ 80)).
    destruct (c_cmp q (c_ofZ 80)) eqn:Hc; cbn [CompOpp negb].
  - apply cmp_eq in Hc as ->. by rewrite cmp_ofZ.
  - by rewrite cmp_refl.
  - assert (Hgt : c_cmp q (c_ofZ 0) = Gt).
    { apply cmp_gt. apply cmp_gt in Hc. eapply Qclt_trans; [|exact Hc].
      apply (proj1 (cmp_lt (c_ofZ 0) (c_ofZ 80))). apply cmp_ofZ. }
    by rewrite Hgt.
Qed.

Lemma length_final_avg_perc_vect (v : list (npfloat Qc)) :
  length (final_avg_perc_vect v) = length v.
Proof. unfold final_avg_perc_vect. apply length_fmap. Qed.

Lemma length_cens_avg_vect (v : list (npfloat Qc)) :
  length (cens_avg_vect v) = length v.
Proof. unfold cens_avg_vect. apply length_fmap. Qed.

Lemma lookup_cens_avg_vect (v : list (npfloat Qc)) (i : nat) :
  cens_avg_vect v !! i =
  (fun x : npfloat Qc => if ltb x (of_Z 80) then of_Z 0 else x) <$> (v !! i).
Proof. unfold cens_avg_vect. apply list_lookup_fmap. Qed.

Lemma label_hubs_eq (avg_vect : list (npfloat Qc)) :
  Forall (fun x => isnan x = false) avg_vect →
  label_hubs avg_vect = hubs_at_least_80 avg_vect.
Proof.
  intros Hall. unfold label_hubs, hubs_at_least_80. f_equal.
  unfold np_nonzero.
  rewrite length_cens_avg_vect, length_final_avg_perc_vect.
  apply filter_ext_in. intros i _. unfold flagged.
  rewrite lookup_cens_avg_vect.
  destruct (final_avg_perc_vect avg_vect !! i) as [x|] eqn:Hi; cbn; [|done].
  rewrite cens_nonzero; [done|].
  pose proof (final_avg_perc_vect_not_nan _ Hall) as Hnn.
  rewrite Forall_lookup in Hnn. exact (Hnn i x Hi).
Qed.

Lemma avg_PC_perc_not_nan (allPC : matrix Qc) :
  Forall (fun x => isnan x = false) (avg_PC_perc allPC).
Proof.
  unfold avg_PC_perc. apply Forall_fmap, Forall_forall. intros x _.
  apply nan_to_num_not_nan.
Qed.


(** The boundary: five distinct scores have percentiles 20, 40, 60, 80 and
    100; the parcel at exactly 80 is a hub. *)
Lemma label_hubs_boundary :
  label_hubs (F:=Qc) (of_Z <$> [1; 2; 3; 4; 5]) = [4; 5].
Proof. vm_compute. reflexivity. Qed.

Section AnyCarrier.
Context {F : Type} `{Carrier F}.

Lemma StronglySorted_seq (a n : nat) : StronglySorted lt (seq a n).
Proof.
  revert a. induction n as [|n IH]; intros a; cbn; constructor; [apply IH|].
  apply Forall_forall. intros x Hx. apply elem_of_seq in Hx. lia.
Qed.

Lemma StronglySorted_filter {A : Type} (R : relation A) (P : A → Prop)
    `{∀ x, Decision (P x)} (l : list A) :
  StronglySorted R l → StronglySorted R (filter P l).
Proof.
  induction 1 as [|x l Hl IH Hx]; [constructor|].
  rewrite filter_cons. case_decide; [|done].
  constructor; [done|]. apply Forall_forall. intros y Hy.
  apply list_elem_of_filter in Hy as [_ Hy].
  by eapply Forall_forall in Hx.
Qed.

Lemma hubs_sorted (avg_vect : list (npfloat F)) :
  StronglySorted Z.lt (label_hubs avg_vect).
Proof.
  unfold label_hubs, np_nonzero.
  apply (StronglySorted_fmap _ lt Z.lt); [intros a b Hab; lia|].
  apply StronglySorted_filter, StronglySorted_seq.
Qed.

Lemma hubs_in_range (avg_vect : list (npfloat F)) (p : Z) :
  p ∈ label_hubs avg_vect → 1 ≤ p ≤ Z.of_nat (length avg_vect).
Proof.
  unfold label_hubs, np_nonzero.
  intros Hp. apply list_elem_of_fmap in Hp as (i & -> & Hi).
  apply list_elem_of_filter in Hi as [_ Hi]. apply elem_of_seq in Hi.
  unfold cens_avg_vect, final_avg_perc_vect in Hi.
  rewrite !length_fmap in Hi. lia.
Qed.

(** X2: whatever the averaged vector holds, the hub list is strictly
    increasing and every entry is a parcel number between 1 and the length
    of the vector. *)
Theorem label_hubs_increasing_in_range (avg_vect : list (npfloat F)) :
  StronglySorted Z.lt (label_hubs avg_vect) ∧
  ∀ p : Z, p ∈ label_hubs avg_vect → 1 ≤ p ≤ Z.of_nat (length avg_vect).
Proof. split; [apply hubs_sorted|apply hubs_in_range]. Qed.

(** X3: an entry of the averaged vector that is NaN is flagged as a hub:
    its percentile is NaN, which is neither below 80 nor equal to 0. *)
Theorem label_hubs_flags_nan (avg_vect : list (npfloat F)) (i : nat) :
  avg_vect !! i = Some NaN →
  Z.of_nat i + 1 ∈ label_hubs avg_vect.
Proof.
  intros Hi. unfold label_hubs. apply list_elem_of_fmap. exists i. split; [done|].
  unfold np_nonzero. apply list_elem_of_filter. split.
  - unfold cens_avg_vect, final_avg_perc_vect.
    rewrite !list_lookup_fmap, Hi. reflexivity.
  - apply elem_of_seq. apply lookup_lt_Some in Hi.
    unfold cens_avg_vect, final_avg_perc_vect. rewrite !length_fmap. lia.
Qed.

End AnyCarrier.

Lemma label_hubs_flags_nan_witness :
  Z.of_nat 1 + 1 ∈ label_hubs (F:=Qc) [of_Z 3; NaN; of_Z 5].
Proof. apply (label_hubs_flags_nan [of_Z 3; NaN; of_Z 5] 1). reflexivity. Defined.

End LabelFacts.

(** ** Facts about the average over the thresholds *)

Module AverageFacts.
Import Np Hubs NpFacts.

(** The entries of a column that are numbers, and their mean; 0 when there
    is none. *)
Definition finite_values (col : list (npfloat Qc)) : list Qc :=
  omap (fun x : npfloat Qc => match x with Num q => Some q | _ => None end) col.

Definition mean_ignoring_nan (col : list (npfloat Qc)) : npfloat Qc :=
  match finite_values col with
  | [] => of_Z 0
  | vals => Num (Qsum vals / Qc_of_Z (Z.of_nat (length vals)))%Qc
  end.

(** Column [j] of a stack of rows. *)
Definition column_at (j : nat) (rows : matrix Qc) : list (npfloat Qc) :=
  omap (fun row : list (npfloat Qc) => row !! j) rows.

Definition nan_or_number (x : npfloat Qc) : Prop := isnan x = true ∨ isfinite x = true.

Lemma columns_lookup (r : list (npfloat Qc)) (rest : matrix Qc) (j : nat) :
  (j < length r)%nat → columns (r :: rest) !! j = Some (column_at j (r :: rest)).
Proof.
  intros Hj. unfold columns. rewrite list_lookup_fmap, lookup_seq_lt by done.
  reflexivity.
Qed.

Lemma nanmean_total_count (col : list (npfloat Qc)) :
  Forall nan_or_number col →
  sum ((fun x : npfloat Qc => if isnan x then of_Z 0 else x) <$> col)
    = Num (Qsum (finite_values col)) ∧
  count_if (fun x : npfloat Qc => negb (isnan x)) col
    = Z.of_nat (length (finite_values col)).
Proof.
  unfold count_if.
  induction 1 as [|x col Hx _ [IHs IHc]]; [done|].
  apply Nat2Z.inj in IHc.
  destruct x as [| |q]; [|by destruct Hx|].
  - split.
    + rewrite fmap_cons, sum_cons, IHs. cbn. f_equal. apply Qcplus_0_l.
    + rewrite filter_cons_False by (cbn; discriminate). by rewrite IHc.
  - split.
    + rewrite fmap_cons, sum_cons, IHs. reflexivity.
    + rewrite filter_cons_True by done. cbn [length]. by rewrite IHc.
Qed.

Lemma nanmean_spec (col : list (npfloat Qc)) :
  Forall nan_or_number col →
  nan_to_num (nanmean col) = mean_ignoring_nan col.
Proof.
  intros Hcol. unfold nanmean, mean_ignoring_nan.
  destruct (nanmean_total_count col Hcol) as [-> ->].
  destruct (finite_values col) as [|v vals].
  - cbn [length Qsum]. unfold of_Z, div. by rewrite !sign_ofZ.
  - unfold of_Z, div. rewrite sign_ofZ.
    replace (Z.of_nat (length (v :: vals)) ?= 0) with Gt
      by (symmetry; apply Z.compare_gt_iff; cbn [length]; lia).
    reflexivity.
Qed.

(** X4: in a stack of equally long rows whose entries are NaN or numbers,
    entry [j] of the averaged vector is the mean of the numbers of column
    [j] (the NaN entries are left out of the total and of the count), and
    exactly 0 when the column is NaN throughout. *)
Theorem avg_PC_perc_mean_ignoring_nan
    (r : list (npfloat Qc)) (rest : matrix Qc) (j : nat) :
  Forall (fun row => length row = length r) rest →
  (j < length r)%nat →
  Forall nan_or_number (column_at j (r :: rest)) →
  avg_PC_perc (r :: rest) !! j = Some (mean_ignoring_nan (column_at j (r :: rest))).
Proof.
  intros _ Hj Hcol. unfold avg_PC_perc.
  rewrite !list_lookup_fmap, columns_lookup by done.
  cbn [fmap option_fmap option_map]. f_equal. by apply nanmean_spec.
Qed.

Definition three_thresholds : matrix Qc :=
  [ [of_Z 10; NaN]; [NaN; NaN]; [of_Z 30; NaN] ].

Lemma avg_PC_perc_mean_ignoring_nan_witness :
  avg_PC_perc three_thresholds !! 1%nat
    = Some (mean_ignoring_nan (column_at 1 three_thresholds)).
Proof.
  apply (avg_PC_perc_mean_ignoring_nan [of_Z 10; NaN] [[NaN; NaN]; [of_Z 30; NaN]] 1).
  - repeat constructor.
  - cbn. lia.
  - repeat constructor.
Defined.

Lemma three_thresholds_average :
  (fun x => eqb x (of_Z 20)) <$> avg_PC_perc three_thresholds !! 0%nat = Some true ∧
  avg_PC_perc three_thresholds !! 1%nat = Some (of_Z 0).
Proof. split; vm_compute; reflexivity. Qed.

End AverageFacts.

(** ** Facts about the participation-coefficient step *)

Module PcFacts.
Import Np Hubs NpFacts.

(** An [n] by [n] array. *)
Definition n_by_n {A : Type} (n : nat) (W : list (list A)) : Prop :=
  length W = n ∧ Forall (fun r => length r = n) W.

Section Shapes.
Context {F : Type} `{Carrier F}.

Lemma n_by_n_triu1 (n : nat) (W : matrix F) : n_by_n n W → n_by_n n (triu1 W).
Proof.
  intros [Hn Hrows]. unfold triu1. split; [by rewrite length_imap|].
  apply Forall_lookup. intros i r Hr.
  rewrite list_lookup_imap in Hr.
  destruct (W !! i) as [row|] eqn:Hrow; [|done]. injection Hr as <-.
  rewrite length_imap. rewrite Forall_lookup in Hrows. exact (Hrows i row Hrow).
Qed.

Lemma n_by_n_nonzero_mask (n : nat) (W : matrix F) :
  n_by_n n W → n_by_n n (nonzero_mask W).
Proof.
  intros [Hn Hrows]. unfold nonzero_mask. split; [by rewrite length_fmap|].
  apply Forall_fmap. eapply Forall_impl; [exact Hrows|].
  intros r Hr. cbn. by rewrite length_fmap.
Qed.

Lemma length_unique_inverse (l : list Z) : length (unique_inverse l) = length l.
Proof. unfold unique_inverse. apply length_fmap. Qed.

Lemma n_by_n_diag (ci : list Z) : n_by_n (length ci) (diag ci).
Proof.
  unfold diag. split; [by rewrite length_imap|].
  apply Forall_lookup. intros k r Hr. rewrite list_lookup_imap in Hr.
  destruct (ci !! k); [|done]. injection Hr as <-.
  by rewrite length_insert, length_replicate.
Qed.

Lemma dot_n_by_n (n : nat) (B D : list (list Z)) :
  n_by_n n B → length D = n →
  ∃ G, dot B D = Ok G ∧ n_by_n n G.
Proof.
  intros [HB Hrows] HD. unfold dot.
  assert (Hall : forallb (fun b => (length b =? length D)%nat) B = true).
  { apply forallb_forall. intros b Hb. apply Nat.eqb_eq. rewrite HD.
    apply list_elem_of_In in Hb. rewrite Forall_forall in Hrows. by apply Hrows. }
  rewrite Hall. eexists. split; [reflexivity|]. split.
  - by rewrite length_fmap.
  - apply Forall_fmap, Forall_forall. intros b _. cbn.
    by rewrite length_fmap, length_seq.
Qed.

Lemma max_of_cons (x : Z) (l : list Z) : max_of (x :: l) = Ok (foldr Z.max x l).
Proof. reflexivity. Qed.

Lemma length_row_sums (W : matrix F) : length (row_sums W) = length W.
Proof. unfold row_sums. apply length_fmap. Qed.

Lemma length_mask_rows (n : nat) (W : matrix F) (Gc : list (list Z)) (i : Z) :
  length W = n → length Gc = n → length (mask_rows W Gc i) = n.
Proof. intros HW HG. unfold mask_rows. rewrite length_zip_with. lia. Qed.

(** The accumulation of [Kc2] keeps [n] entries. *)
Lemma length_Kc2 (n : nat) (g : Z → list (npfloat F)) (ks : list Z)
    (acc : list (npfloat F)) :
  (∀ k, length (g k) = n) → length acc = n →
  length (fold_left (fun a k => zip_with add a (g k)) ks acc) = n.
Proof.
  intros Hg. revert acc. induction ks as [|k ks IH]; intros acc Hacc; [done|].
  cbn. apply IH. rewrite length_zip_with, Hg. lia.
Qed.

(** Entry [j] of the accumulated [Kc2] is the accumulation of the entries
    [j]. *)
Lemma lookup_Kc2 (g : Z → list (npfloat F)) (ks : list Z)
    (acc : list (npfloat F)) (j : nat) (a : npfloat F) :
  acc !! j = Some a →
  (∀ k, is_Some (g k !! j)) →
  fold_left (fun a k => zip_with add a (g k)) ks acc !! j
    = Some (fold_left (fun a k => add a (default NaN (g k !! j))) ks a).
Proof.
  intros Ha Hg. revert acc a Ha. induction ks as [|k ks IH]; intros acc a Ha; [done|].
  cbn. apply IH. rewrite lookup_zip_with, Ha. cbn.
  destruct (Hg k) as [y ->]. reflexivity.
Qed.

(** [Kc2] of one node, from its row of weights and its row of [Gc]. *)
Definition Kc2_entry (row : list (npfloat F)) (gcrow : list Z) (kmax : Z) : npfloat F :=
  fold_left
    (fun a k =>
       add a (square (sum (zip_with
                (fun (w : npfloat F) (g : Z) => mul w (of_bool (g =? k))) row gcrow))))
    (Py.range 1 (kmax + 1)) (of_Z 0).

Lemma fold_left_ext_in {A B : Type} (f g : A → B → A) (l : list B) (a : A) :
  (∀ x y, f x y = g x y) → fold_left f l a = fold_left g l a.
Proof.
  intros Hfg. revert a. induction l as [|b l IH]; intros a; [done|].
  cbn. by rewrite Hfg, IH.
Qed.

(** [pc_core] on an [n] by [n] matrix with [n] labels, [n > 0]: it
    returns, [Ko] is the vector of row sums, and entry [i] of [P] is
    [1 - Kc2 / Ko^2] of row [i]. *)
Lemma pc_core_ok (n : nat) (W : matrix F) (ci0 : list Z) :
  n_by_n n W → length ci0 = n → (0 < n)%nat →
  ∃ (P : list (npfloat F)) (Gc : list (list Z)) (kmax : Z),
    pc_core W ci0 = Ok (row_sums W, P) ∧
    length P = n ∧ n_by_n n Gc ∧
    ∀ i row gcrow, W !! i = Some row → Gc !! i = Some gcrow →
      P !! i = Some (sub (of_Z 1) (div (Kc2_entry row gcrow kmax) (square (sum row)))).
Proof.
  intros HW Hci Hn. unfold pc_core.
  set (ci := (fun c => c + 1) <$> unique_inverse ci0).
  assert (Hlen : length ci = n)
    by (unfold ci; by rewrite length_fmap, length_unique_inverse).
  destruct (dot_n_by_n n (nonzero_mask W) (diag ci)) as (Gc & -> & HGc).
  { by apply n_by_n_nonzero_mask. }
  { rewrite <- Hlen. apply n_by_n_diag. }
  destruct ci as [|c ci'] eqn:Hcieq; [cbn in Hlen; lia|].
  rewrite max_of_cons. cbn [mbind result_bind].
  set (kmax := foldr Z.max c ci').
  set (g := fun k : Z => square <$> row_sums (mask_rows W Gc k)).
  set (Kc2 := fold_left _ _ _).
  assert (HKlen : length Kc2 = n).
  { unfold Kc2. apply (length_Kc2 n g).
    - intros k. unfold g. rewrite length_fmap, length_row_sums.
      apply length_mask_rows; [apply HW|apply HGc].
    - rewrite length_replicate. apply HW. }
  exists (zip_with (fun k2 ko : npfloat F => sub (of_Z 1) (div k2 (square ko)))
                   Kc2 (row_sums W)), Gc, kmax.
  split; [reflexivity|]. split; [|split; [exact HGc|]].
  - rewrite length_zip_with, HKlen, length_row_sums. destruct HW as [-> _]. lia.
  - intros i row gcrow Hrow Hgc.
    assert (Hi : (i < n)%nat).
    { apply lookup_lt_Some in Hrow. destruct HW as [<- _]. done. }
    rewrite lookup_zip_with.
    assert (HK : Kc2 !! i = Some (Kc2_entry row gcrow kmax)).
    { unfold Kc2. erewrite (lookup_Kc2 g).
      - f_equal. unfold Kc2_entry. apply fold_left_ext_in. intros a k. f_equal.
        unfold g, row_sums, mask_rows.
        rewrite !list_lookup_fmap, lookup_zip_with, Hrow, Hgc. reflexivity.
      - destruct HW as [<- _]. apply lookup_replicate_2. exact Hi.
      - intros k. apply lookup_lt_is_Some. unfold g.
        rewrite length_fmap, length_row_sums.
        rewrite (length_mask_rows n); [done|apply HW|apply HGc]. }
    rewrite HK. cbn. unfold row_sums. rewrite list_lookup_fmap, Hrow. reflexivity.
Qed.

Lemma length_insert_by {A : Type} (key : A → Z) (x : A) (l : list A) :
  length (Py.insert_by key x l) = S (length l).
Proof.
  induction l as [|y l IH]; [done|]. cbn. case_match; cbn; by rewrite ?IH.
Qed.

Lemma length_sorted {A : Type} (key : A → Z) (l : list A) :
  length (Py.sorted key l) = length l.
Proof.
  unfold Py.sorted.
  enough (Hgen : ∀ acc, length (fold_left (fun acc x => Py.insert_by key x acc) l acc)
                        = (length l + length acc)%nat)
    by (rewrite Hgen; cbn; lia).
  induction l as [|x l IH]; intros acc; [done|].
  cbn. rewrite IH, length_insert_by. lia.
Qed.

Lemma length_column_sums (n : nat) (B : list (list Z)) :
  Forall (fun r => length r = n) B →
  length (foldr (zip_with Z.add) (replicate n 0) B) = n.
Proof.
  induction 1 as [|x l Hx _ IH]; [apply length_replicate|].
  cbn [foldr]. rewrite length_zip_with, IH. lia.
Qed.

Lemma length_degrees_und (n : nat) (W : matrix F) :
  n_by_n n W → length (degrees_und W) = n.
Proof.
  intros HW. apply n_by_n_nonzero_mask in HW as [Hn Hrows].
  unfold degrees_und. destruct (nonzero_mask W) as [|r B]; [done|].
  assert (Hr : length r = n) by (by inversion Hrows).
  rewrite Hr. by apply length_column_sums.
Qed.

Lemma percentile25_ok (degs : list Z) :
  degs ≠ [] → ∃ low : npfloat F, percentile25 degs = Ok low.
Proof.
  intros Hne. unfold percentile25.
  pose proof (length_sorted (fun d : Z => d) degs) as Hlen.
  set (s := Py.sorted _ degs) in *.
  assert (Hpos : (0 < length s)%nat).
  { rewrite Hlen. destruct degs; [done|cbn; lia]. }
  assert (Hlo : (Z.to_nat ((Z.of_nat (length s) - 1) / 4) < length s)%nat).
  { apply Nat2Z.inj_lt. rewrite Z2Nat.id by (apply Z.div_pos; lia).
    assert ((Z.of_nat (length s) - 1) / 4 ≤ Z.of_nat (length s) - 1)
      by (apply Z.div_le_upper_bound; lia).
    lia. }
  destruct (lookup_lt_is_Some_2 s _ Hlo) as [a ->].
  destruct (lookup_lt_is_Some_2 s
              (Nat.min (Z.to_nat ((Z.of_nat (length s) - 1) / 4) + 1) (length s - 1)))
    as [b ->]; [lia|].
  eauto.
Qed.

Lemma length_set_nan (mask : list nat) (v : list (npfloat F)) :
  length (set_nan mask v) = length v.
Proof.
  unfold set_nan. induction mask as [|i mask IH]; [done|].
  cbn. by rewrite length_insert.
Qed.

Lemma lookup_set_nan_in (mask : list nat) (v : list (npfloat F)) (j : nat) :
  j ∈ mask → (j < length v)%nat → set_nan mask v !! j = Some NaN.
Proof.
  intros Hj Hlt. unfold set_nan. induction mask as [|i mask IH]; [by inversion Hj|].
  cbn. destruct (decide (i = j)) as [->|Hne].
  - apply list_lookup_insert_eq. fold (set_nan mask v). by rewrite length_set_nan.
  - rewrite list_lookup_insert_ne by done. apply IH.
    apply elem_of_cons in Hj as [->|Hj]; done.
Qed.

Lemma lookup_set_nan_notin (mask : list nat) (v : list (npfloat F)) (j : nat) :
  j ∉ mask → set_nan mask v !! j = v !! j.
Proof.
  intros Hj. unfold set_nan. induction mask as [|i mask IH]; [done|].
  cbn. apply not_elem_of_cons in Hj as [Hne Hj].
  rewrite list_lookup_insert_ne by done. by apply IH.
Qed.

Lemma elem_of_argwhere_nan (v : list (npfloat F)) (j : nat) :
  j ∈ argwhere_nan v ↔ ∃ x, v !! j = Some x ∧ isnan x = true.
Proof.
  unfold argwhere_nan. rewrite list_elem_of_filter, elem_of_seq. split.
  - intros [Hnan _]. destruct (v !! j) as [x|]; [eauto|done].
  - intros (x & Hx & Hnan). rewrite Hx. split; [done|].
    apply lookup_lt_Some in Hx. lia.
Qed.

End Shapes.

Section Step.
Context {F : Type} `{Carrier F}.

(** The vector one threshold leaves, entry by entry: on an [n] by [n]
    matrix with [n] labels the step returns [n] entries; entry [i] is NaN
    where the hand-written coefficient is NaN, and elsewhere the
    percentile times the degree multiplier, with 0 turned into NaN. *)
Lemma pc_threshold_step_ok (n : nat) (W : matrix F) (aff : list Z) :
  n_by_n n W → length aff = n → (0 < n)%nat →
  ∃ (PC_wnans : list (npfloat F)) (low : npfloat F) (out : list (npfloat F)),
    let upper := triu1 W in
    let PC_nonans :=
      zip_with (fun ko p : npfloat F => if nonzero ko then p else of_Z 0)
               (row_sums upper) PC_wnans in
    pc_core upper aff = Ok (row_sums upper, PC_wnans) ∧
    length PC_wnans = n ∧
    percentile25 (degrees_und upper) = Ok low ∧
    pc_threshold_step W aff = Ok out ∧
    length out = n ∧
    ∀ i w, PC_wnans !! i = Some w →
      ∃ p d, PC_nonans !! i = Some p ∧ degrees_und upper !! i = Some d ∧
        out !! i = Some
          (if isnan w then NaN
           else
             let x := mul (percentileofscore PC_nonans p)
                          (of_Z (if ltb (of_Z d) low then 0 else 1)) in
             if eqb x (of_Z 0) then NaN else x).
Proof.
  intros HW Haff Hn.
  pose proof (n_by_n_triu1 n W HW) as HU.
  destruct (pc_core_ok n (triu1 W) aff HU Haff Hn) as (P & Gc & kmax & Hcore & HP & _ & _).
  pose proof (length_degrees_und n (triu1 W) HU) as Hdegs.
  destruct (percentile25_ok (F:=F) (degrees_und (triu1 W))) as [low Hlow].
  { intros Hnil. rewrite Hnil in Hdegs. cbn in Hdegs. lia. }
  exists P, low. eexists. cbn zeta.
  split; [exact Hcore|]. split; [exact HP|]. split; [exact Hlow|].
  unfold pc_threshold_step, participation_coef. rewrite Hcore.
  cbn [mbind result_bind]. rewrite Hlow. cbn [mbind result_bind].
  split; [reflexivity|].
  set (PC_nonans := zip_with _ (row_sums (triu1 W)) P).
  assert (Hnon : length PC_nonans = n).
  { unfold PC_nonans. rewrite length_zip_with, length_row_sums, HP.
    destruct HU as [-> _]. lia. }
  set (v := zeros_to_nan _).
  assert (Hv : length v = n).
  { unfold v, zeros_to_nan, PC_percs_of, deg_mult_of.
    rewrite length_fmap, length_zip_with, !length_fmap, Hnon, Hdegs. lia. }
  split; [by rewrite length_set_nan|].
  intros i w Hw.
  assert (Hi : (i < n)%nat) by (apply lookup_lt_Some in Hw; lia).
  destruct (lookup_lt_is_Some_2 PC_nonans i) as [p Hp]; [lia|].
  destruct (lookup_lt_is_Some_2 (degrees_und (triu1 W)) i) as [d Hd]; [lia|].
  exists p, d. split; [done|]. split; [done|].
  assert (Hvi : v !! i = Some
    (let x := mul (percentileofscore PC_nonans p)
                  (of_Z (if ltb (of_Z d) low then 0 else 1)) in
     if eqb x (of_Z 0) then NaN else x)).
  { unfold v, zeros_to_nan, PC_percs_of, deg_mult_of.
    rewrite list_lookup_fmap, lookup_zip_with, !list_lookup_fmap, Hp, Hd.
    reflexivity. }
  destruct (isnan w) eqn:Hnan.
  - apply lookup_set_nan_in; [|lia].
    apply elem_of_argwhere_nan. eauto.
  - rewrite lookup_set_nan_notin; [exact Hvi|].
    rewrite elem_of_argwhere_nan. intros (w' & Hw' & Hnan').
    rewrite Hw in Hw'. injection Hw' as <-. congruence.
Qed.

End Step.

(** *** A node without outgoing weights *)

Definition no_edges (row : list (npfloat Qc)) : Prop :=
  Forall (fun x => x = of_Z 0) row.

Lemma sum_no_edges (row : list (npfloat Qc)) : no_edges row → sum row = of_Z 0.
Proof.
  induction 1 as [|x row -> _ IH]; [done|].
  rewrite sum_cons, IH. unfold of_Z, add. by rewrite ofZ_add.
Qed.

Lemma masked_no_edges (row : list (npfloat Qc)) (gcrow : list Z) (k : Z) :
  no_edges row →
  no_edges (zip_with (fun (w : npfloat Qc) (g : Z) => mul w (of_bool (g =? k))) row gcrow).
Proof.
  intros Hrow. revert gcrow. induction Hrow as [|x row -> _ IH]; intros [|g gcrow];
    try constructor.
  - unfold of_bool, of_Z, mul. rewrite ofZ_mul. by rewrite Z.mul_0_l.
  - apply IH.
Qed.

Lemma Kc2_entry_no_edges (row : list (npfloat Qc)) (gcrow : list Z) (kmax : Z) :
  no_edges row → Kc2_entry row gcrow kmax = of_Z 0.
Proof.
  intros Hrow. unfold Kc2_entry.
  induction (Py.range 1 (kmax + 1)) as [|k ks IH]; [done|].
  cbn [fold_left]. rewrite (sum_no_edges _ (masked_no_edges row gcrow k Hrow)).
  replace (add (of_Z 0) (square (of_Z 0))) with (of_Z (F:=Qc) 0); [exact IH|].
  unfold square, of_Z, mul, add. by rewrite ofZ_mul, ofZ_add.
Qed.

Lemma zero_over_zero : sub (of_Z 1) (div (of_Z 0) (square (of_Z (F:=Qc) 0))) = NaN.
Proof. vm_compute. reflexivity. Qed.

Lemma pc_core_row_no_edges (n : nat) (W : matrix Qc) (ci : list Z)
    (i : nat) (row : list (npfloat Qc)) :
  n_by_n n W → length ci = n →
  W !! i = Some row → no_edges row →
  ∃ P, pc_core W ci = Ok (row_sums W, P) ∧ length P = n ∧ P !! i = Some NaN.
Proof.
  intros HW Hci Hrow Hzero.
  assert (Hn : (0 < n)%nat).
  { apply lookup_lt_Some in Hrow. destruct HW as [<- _]. lia. }
  destruct (pc_core_ok n W ci HW Hci Hn) as (P & Gc & kmax & Hcore & HP & HGc & Hent).
  exists P. split; [done|]. split; [done|].
  destruct (lookup_lt_is_Some_2 Gc i) as [gcrow Hgc].
  { destruct HGc as [-> _]. apply lookup_lt_Some in Hrow. by destruct HW as [<- _]. }
  rewrite (Hent i row gcrow Hrow Hgc).
  rewrite Kc2_entry_no_edges, sum_no_edges by done. by rewrite zero_over_zero.
Qed.

(** X5: on an [n] by [n] matrix with [n] labels, the hand-written
    participation coefficient of a node whose row holds no weight is NaN
    (0/0), whatever the labels. *)
Theorem pc_core_no_edges_nan (n : nat) (W : matrix Qc) (ci : list Z)
    (i : nat) (row : list (npfloat Qc)) :
  n_by_n n W → length ci = n →
  W !! i = Some row → no_edges row →
  ∃ P, pc_core W ci = Ok (row_sums W, P) ∧ length P = n ∧ P !! i = Some NaN.
Proof. apply pc_core_row_no_edges. Qed.

Definition two_nodes : matrix Qc := [ [of_Z 0; of_Z 1]; [of_Z 0; of_Z 0] ].

Lemma pc_core_no_edges_nan_witness :
  ∃ P, pc_core two_nodes [7; 7] = Ok (row_sums two_nodes, P) ∧
       length P = 2%nat ∧ P !! 1%nat = Some NaN.
Proof.
  apply (pc_core_no_edges_nan 2 two_nodes [7; 7] 1 [of_Z 0; of_Z 0]).
  - split; [reflexivity|]. repeat constructor.
  - reflexivity.
  - reflexivity.
  - repeat constructor.
Defined.

(** *** What one threshold leaves *)

Import PercentileFacts.

(** Every weight is a finite number. *)
Definition finite_matrix (W : matrix Qc) : Prop :=
  Forall (Forall (fun x : npfloat Qc => isfinite x = true)) W.

Lemma step_entries (n : nat) (W : matrix Qc) (aff : list Z) :
  n_by_n n W → length aff = n → (0 < n)%nat →
  ∃ (PC_wnans : list (npfloat Qc)) (low : npfloat Qc) (out : list (npfloat Qc)),
    pc_core (triu1 W) aff = Ok (row_sums (triu1 W), PC_wnans) ∧
    percentile25 (degrees_und (triu1 W)) = Ok low ∧
    pc_threshold_step W aff = Ok out ∧
    length out = n ∧
    ∀ i w d, PC_wnans !! i = Some w → degrees_und (triu1 W) !! i = Some d →
      (isnan w = true ∨ ltb (of_Z d) low = true → out !! i = Some NaN) ∧
      (isnan w = false → ltb (of_Z d) low = false →
         ∃ q, out !! i = Some (Num q) ∧
              c_cmp q (c_ofZ 0) = Gt ∧ c_cmp q (c_ofZ 100) ≠ Gt).
Proof.
  intros HW Haff Hn.
  destruct (pc_threshold_step_ok n W aff HW Haff Hn)
    as (P & low & out & Hcore & HP & Hlow & Hstep & Hout & Hent).
  cbn zeta in Hent.
  exists P, low, out. repeat (split; [done|]).
  intros i w d Hw Hd.
  destruct (Hent i w Hw) as (p & d' & Hp & Hd' & Hi).
  rewrite Hd in Hd'. injection Hd' as <-.
  set (PC_nonans := zip_with _ (row_sums (triu1 W)) P) in *.
  assert (Hpw : isnan w = false → isnan p = false).
  { intros Hnan. unfold PC_nonans in Hp. rewrite lookup_zip_with, Hw in Hp.
    destruct (row_sums (triu1 W) !! i) as [ko|]; [|done]. cbn in Hp.
    injection Hp as <-. by destruct (nonzero ko). }
  assert (Hperc : (isnan w = true ∧ percentileofscore PC_nonans p = NaN) ∨
                  ∃ q, percentileofscore PC_nonans p = Num q ∧
                       c_cmp q (c_ofZ 0) = Gt ∧ c_cmp q (c_ofZ 100) ≠ Gt).
  { destruct (isnan p) eqn:Hnanp.
    - left. split.
      + destruct (isnan w); [done|]. specialize (Hpw eq_refl). congruence.
      + unfold percentileofscore. by rewrite Hnanp.
    - right. apply percentileofscore_range; [done|].
      eapply list_elem_of_lookup_2. exact Hp. }
  split.
  - intros [Hnan|Hdeg].
    + by rewrite Hi, Hnan.
    + rewrite Hi, Hdeg. destruct (isnan w); [done|]. cbn zeta.
      destruct Hperc as [[_ ->]|(q & -> & _)]; [done|].
      unfold of_Z, mul. rewrite mul_ofZ_0. unfold eqb, compare.
      by rewrite cmp_refl.
  - intros Hnan Hdeg. rewrite Hi, Hnan, Hdeg. cbn zeta.
    destruct Hperc as [[Hw' _]|(q & -> & Hpos & Hle)]; [congruence|].
    exists q. unfold of_Z, mul. rewrite mul_ofZ_1. unfold eqb, compare.
    by rewrite Hpos.
Qed.



(** *** Nodes with no weight right of the diagonal *)

(** Row [i] holds no weight towards a node of higher index. *)
Definition no_edges_right (i : nat) (row : list (npfloat Qc)) : Prop :=
  ∀ j x, row !! j = Some x → (i < j)%nat → x = of_Z 0.

Lemma triu1_no_edges (W : matrix Qc) (i : nat) (row : list (npfloat Qc)) :
  W !! i = Some row → no_edges_right i row →
  ∃ row', triu1 W !! i = Some row' ∧ no_edges row'.
Proof.
  intros Hrow Hright. unfold triu1. rewrite list_lookup_imap, Hrow.
  eexists. split; [reflexivity|]. apply Forall_lookup. intros j x Hx.
  rewrite list_lookup_imap in Hx.
  destruct (row !! j) as [y|] eqn:Hy; [|discriminate]. injection Hx as <-.
  destruct (i <? j)%nat eqn:Hij; [|reflexivity].
  apply Nat.ltb_lt in Hij. by eapply Hright.
Qed.

Lemma step_row_no_edges_right (n : nat) (W : matrix Qc) (aff : list Z)
    (i : nat) (row : list (npfloat Qc)) :
  n_by_n n W → length aff = n →
  W !! i = Some row → no_edges_right i row →
  ∃ out, pc_threshold_step W aff = Ok out ∧ length out = n ∧ out !! i = Some NaN.
Proof.
  intros HW Haff Hrow Hright.
  assert (Hi : (i < n)%nat).
  { apply lookup_lt_Some in Hrow. by destruct HW as [<- _]. }
  destruct (pc_threshold_step_ok n W aff HW Haff ltac:(lia))
    as (P & low & out & Hcore & HP & Hlow & Hstep & Hout & Hent).
  exists out. split; [done|]. split; [done|].
  destruct (triu1_no_edges W i row Hrow Hright) as (row' & Hrow' & Hzero).
  destruct (pc_core_row_no_edges n (triu1 W) aff i row') as (P' & Hcore' & _ & HPi);
    [by apply n_by_n_triu1|done|done|done|].
  rewrite Hcore in Hcore'. injection Hcore' as <-.
  destruct (Hent i NaN HPi) as (p & d & _ & _ & Hi'). exact Hi'.
Qed.

Lemma step_last_row (n : nat) (W : matrix Qc) (aff : list Z) :
  n_by_n n W → length aff = n → (0 < n)%nat →
  ∃ out, pc_threshold_step W aff = Ok out ∧ length out = n ∧
         out !! (n - 1)%nat = Some NaN.
Proof.
  intros HW Haff Hn.
  destruct (lookup_lt_is_Some_2 W (n - 1)) as [row Hrow].
  { destruct HW as [-> _]. lia. }
  apply (step_row_no_edges_right n W aff (n - 1) row); try done.
  intros j x Hx Hj. apply lookup_lt_Some in Hx.
  destruct HW as [_ Hrows]. rewrite Forall_lookup in Hrows.
  rewrite (Hrows _ _ Hrow) in Hx. lia.
Qed.

(** X7: the strict upper triangle is all the step looks at: a node none of
    whose retained weights goes to a node of higher index gets NaN in the
    vector the threshold leaves, whatever its weights to nodes of lower
    index are. *)
Theorem pc_threshold_step_no_edges_right (n : nat) (W : matrix Qc) (aff : list Z)
    (i : nat) (row : list (npfloat Qc)) :
  n_by_n n W → length aff = n →
  W !! i = Some row → no_edges_right i row →
  ∃ out, pc_threshold_step W aff = Ok out ∧ length out = n ∧ out !! i = Some NaN.
Proof. apply step_row_no_edges_right. Qed.

Definition three_nodes : matrix Qc :=
  [ [of_Z 1; of_Z 2; of_Z 0]; [of_Z 2; of_Z 1; of_Z 0]; [of_Z 0; of_Z 0; of_Z 1] ].

Lemma pc_threshold_step_no_edges_right_witness :
  ∃ out, pc_threshold_step three_nodes [1; 1; 2] = Ok out ∧
         length out = 3%nat ∧ out !! 1%nat = Some NaN.
Proof.
  apply (pc_threshold_step_no_edges_right 3 three_nodes [1; 1; 2] 1
           [of_Z 2; of_Z 1; of_Z 0]).
  - split; [reflexivity|]. repeat constructor.
  - reflexivity.
  - reflexivity.
  - intros j x Hj Hlt. destruct j as [|[|[|j]]]; try lia.
    + by injection Hj as <-.
    + done.
Defined.

(** X8: the node of highest index has an empty row in the strict upper
    triangle, so the last entry of the vector a threshold leaves is NaN
    for every matrix and every labelling. *)
Theorem pc_threshold_step_last_nan (n : nat) (W : matrix Qc) (aff : list Z) :
  n_by_n n W → length aff = n → (0 < n)%nat →
  ∃ out, pc_threshold_step W aff = Ok out ∧ length out = n ∧
         out !! (n - 1)%nat = Some NaN.
Proof. apply step_last_row. Qed.

Lemma pc_threshold_step_last_nan_witness :
  ∃ out, pc_threshold_step three_nodes [1; 1; 2] = Ok out ∧
         length out = 3%nat ∧ out !! (3 - 1)%nat = Some NaN.
Proof.
  apply (pc_threshold_step_last_nan 3 three_nodes [1; 1; 2]).
  - split; [reflexivity|]. repeat constructor.
  - reflexivity.
  - lia.
Defined.

End PcFacts.

(** ** The participation coefficient as a formula *)

Module PcFormula.
Import Np Hubs NpFacts PcFacts.

(** The weight of a row into community [c], the sum of its squares over the
    communities 1 to [kmax], and the coefficient of the row. *)
Definition weight_into (row : list (npfloat Qc)) (ci : list Z) (c : Z) : npfloat Qc :=
  sum (zip_with (fun (w : npfloat Qc) (l : Z) => mul w (of_bool (l =? c))) row ci).

Definition community_squares (row : list (npfloat Qc)) (ci : list Z) (kmax : Z)
  : npfloat Qc :=
  fold_left (fun a c => add a (square (weight_into row ci c)))
            (Py.range 1 (kmax + 1)) (of_Z 0).

Definition coefficient (row : list (npfloat Qc)) (ci : list Z) (kmax : Z) : npfloat Qc :=
  sub (of_Z 1) (div (community_squares row ci kmax) (square (sum row))).

(** *** One column of [np.diag(ci)] *)

Lemma Zsum_zeros (b e : list Z) :
  Forall (fun x => x = 0) e → Zsum (zip_with Z.mul b e) = 0.
Proof.
  intros He. revert b. induction He as [|x e -> _ IH]; intros [|y b]; try done.
  cbn [zip_with Zsum foldr]. fold (Zsum (zip_with Z.mul b e)). rewrite IH. lia.
Qed.

Lemma Zsum_one_hot (b e : list Z) (j : nat) (v : Z) :
  length b = length e →
  (∀ k x, e !! k = Some x → x = if decide (k = j) then v else 0) →
  (j < length e)%nat →
  Zsum (zip_with Z.mul b e) = default 0 (b !! j) * v.
Proof.
  revert e j. induction b as [|y b IH]; intros [|x e] j Hlen He Hj; try done.
  cbn [zip_with Zsum foldr]. fold (Zsum (zip_with Z.mul b e)).
  destruct j as [|j].
  - rewrite (He 0%nat x eq_refl). cbn [decide]. rewrite decide_True by done.
    rewrite Zsum_zeros; [cbn; by rewrite Z.add_0_r|].
    apply Forall_lookup. intros k z Hz.
    rewrite (He (S k) z Hz). by rewrite decide_False.
  - rewrite (He 0%nat x eq_refl), decide_False by done.
    rewrite (IH e j); [cbn; by rewrite Z.mul_0_r|by injection Hlen| |cbn in Hj; lia].
    intros k z Hz. rewrite (He (S k) z Hz).
    destruct (decide (k = j)) as [->|Hne].
    + by rewrite decide_True.
    + rewrite decide_False; [done|lia].
Qed.

Lemma column_diag (ci : list Z) (j k : nat) (x : Z) :
  column j (diag ci) !! k = Some x →
  x = if decide (k = j) then default 0 (ci !! j) else 0.
Proof.
  unfold column, diag. rewrite list_lookup_fmap, list_lookup_imap.
  destruct (ci !! k) as [c|] eqn:Hc; [|done]. cbn. intros [= <-].
  apply lookup_lt_Some in Hc as Hk.
  destruct (decide (k = j)) as [->|Hne].
  - rewrite list_lookup_insert_eq by (by rewrite length_replicate). cbn. by rewrite Hc.
  - rewrite list_lookup_insert_ne by done.
    destruct (replicate (length ci) 0 !! j) as [z|] eqn:Hz; [|done].
    apply lookup_replicate in Hz as [-> _]. done.
Qed.

Lemma length_column (j : nat) (D : list (list Z)) : length (column j D) = length D.
Proof. unfold column. apply length_fmap. Qed.

Lemma length_diag (ci : list Z) : length (diag ci) = length ci.
Proof. unfold diag. apply length_imap. Qed.

(** Entry [(i, j)] of [Gc] is the community of [j] where [W] has a weight
    from [i] to [j], and 0 elsewhere. *)
Lemma dot_diag (B : list (list Z)) (ci : list Z) (G : list (list Z))
    (i : nat) (b : list Z) :
  dot B (diag ci) = Ok G → B !! i = Some b → length b = length ci →
  G !! i = Some (zip_with Z.mul b ci).
Proof.
  unfold dot. destruct (forallb _ B); [|done]. intros [= <-] Hb Hlen.
  rewrite list_lookup_fmap, Hb. cbn [fmap option_fmap option_map]. f_equal.
  rewrite length_diag. apply list_eq. intros j.
  rewrite list_lookup_fmap, lookup_zip_with.
  destruct (decide (j < length ci)%nat) as [Hj|Hj].
  - rewrite lookup_seq_lt by done. cbn [fmap option_fmap option_map].
    destruct (lookup_lt_is_Some_2 b j) as [y Hy]; [lia|].
    destruct (lookup_lt_is_Some_2 ci j) as [c Hc]; [lia|].
    rewrite Hy, Hc. cbn. f_equal.
    rewrite (Zsum_one_hot b (column j (diag ci)) j c).
    + by rewrite Hy.
    + by rewrite length_column, length_diag.
    + intros k x Hx. apply column_diag in Hx. by rewrite Hc in Hx.
    + by rewrite length_column, length_diag.
  - rewrite lookup_seq_ge by lia. cbn.
    rewrite (lookup_ge_None_2 b j) by lia. done.
Qed.

(** *** The masked weights *)

Lemma mul_of_bool_zero (w : npfloat Qc) (b b' : bool) :
  nonzero w = false → mul w (of_bool b) = mul w (of_bool b').
Proof.
  destruct w as [|[]|q]; [by cbv|by cbv|by cbv|]. unfold nonzero, eqb, compare, of_Z.
  destruct (c_cmp q (c_ofZ 0)) eqn:Hq; try done. intros _.
  apply cmp_eq in Hq as ->. unfold of_bool, of_Z, mul. by rewrite !ofZ_mul.
Qed.

Lemma masked_weights (row : list (npfloat Qc)) (ci : list Z) (c : Z) :
  1 ≤ c →
  zip_with (fun (w : npfloat Qc) (g : Z) => mul w (of_bool (g =? c))) row
           (zip_with Z.mul ((fun x : npfloat Qc => if nonzero x then 1 else 0) <$> row) ci)
  = zip_with (fun (w : npfloat Qc) (l : Z) => mul w (of_bool (l =? c))) row ci.
Proof.
  intros Hc. revert ci. induction row as [|w row IH]; intros [|l ci]; try done.
  cbn [fmap list_fmap zip_with]. rewrite IH. f_equal.
  destruct (nonzero w) eqn:Hw.
  - by rewrite Z.mul_1_l.
  - by apply mul_of_bool_zero.
Qed.

Lemma Kc2_entry_formula (row : list (npfloat Qc)) (ci : list Z) (kmax : Z) :
  Kc2_entry row
    (zip_with Z.mul ((fun x : npfloat Qc => if nonzero x then 1 else 0) <$> row) ci) kmax
  = community_squares row ci kmax.
Proof.
  unfold Kc2_entry, community_squares, weight_into.
  assert (Hks : Forall (fun c => 1 ≤ c) (Py.range 1 (kmax + 1))).
  { apply Forall_forall. intros c Hc. apply DensityFacts.elem_of_range in Hc. lia. }
  generalize (of_Z (F:=Qc) 0). induction Hks as [|c ks Hc _ IH]; intros a; [done|].
  cbn [fold_left]. rewrite masked_weights by done. apply IH.
Qed.

(** The pieces of [pc_core], with [Gc] as it is computed. *)
Lemma pc_core_formula_row (n : nat) (W : matrix Qc) (ci0 : list Z)
    (i : nat) (row : list (npfloat Qc)) :
  n_by_n n W → length ci0 = n → W !! i = Some row →
  let ci := (fun c => c + 1) <$> unique_inverse ci0 in
  ∃ P kmax,
    pc_core W ci0 = Ok (row_sums W, P) ∧ length P = n ∧
    max_of ci = Ok kmax ∧
    P !! i = Some (coefficient row ci kmax).
Proof.
  intros HW Hci Hrow ci.
  assert (Hn : (0 < n)%nat).
  { apply lookup_lt_Some in Hrow. destruct HW as [<- _]. lia. }
  assert (Hlen : length ci = n)
    by (unfold ci; by rewrite length_fmap, length_unique_inverse).
  assert (Hrowlen : length row = n).
  { destruct HW as [_ Hrows]. rewrite Forall_lookup in Hrows. exact (Hrows i row Hrow). }
  unfold pc_core. fold ci.
  destruct (dot_n_by_n n (nonzero_mask W) (diag ci)) as (Gc & HGc & HGshape).
  { by apply n_by_n_nonzero_mask. }
  { by rewrite length_diag. }
  rewrite HGc. cbn [mbind result_bind].
  destruct ci as [|c0 ci'] eqn:Hcieq; [cbn in Hlen; lia|].
  rewrite max_of_cons. cbn [mbind result_bind].
  set (kmax := foldr Z.max c0 ci').
  set (g := fun k : Z => square <$> row_sums (mask_rows W Gc k)).
  set (Kc2 := fold_left _ _ _).
  assert (HKlen : length Kc2 = n).
  { unfold Kc2. apply (length_Kc2 n g).
    - intros k. unfold g. rewrite length_fmap, length_row_sums.
      apply length_mask_rows; [apply HW|apply HGshape].
    - rewrite length_replicate. apply HW. }
  eexists _, kmax. split; [reflexivity|]. split; [|split; [reflexivity|]].
  - rewrite length_zip_with, HKlen, length_row_sums. destruct HW as [-> _]. lia.
  - assert (Hi : (i < n)%nat).
    { apply lookup_lt_Some in Hrow. by destruct HW as [<- _]. }
    assert (Hgc : Gc !! i = Some (zip_with Z.mul
              ((fun x : npfloat Qc => if nonzero x then 1 else 0) <$> row) (c0 :: ci'))).
    { apply (dot_diag (nonzero_mask W) (c0 :: ci') Gc i); [exact HGc| |].
      - unfold nonzero_mask. by rewrite list_lookup_fmap, Hrow.
      - by rewrite length_fmap, Hrowlen. }
    set (gcrow := zip_with Z.mul _ (c0 :: ci')) in Hgc.
    rewrite lookup_zip_with.
    assert (HK : Kc2 !! i = Some (Kc2_entry row gcrow kmax)).
    { unfold Kc2. erewrite (lookup_Kc2 g).
      - f_equal. unfold Kc2_entry. apply fold_left_ext_in. intros a k. f_equal.
        unfold g, row_sums, mask_rows.
        rewrite !list_lookup_fmap, lookup_zip_with, Hrow, Hgc. reflexivity.
      - destruct HW as [<- _]. apply lookup_replicate_2. exact Hi.
      - intros k. apply lookup_lt_is_Some. unfold g.
        rewrite length_fmap, length_row_sums.
        rewrite (length_mask_rows n); [done|apply HW|apply HGshape]. }
    rewrite HK. cbn [mbind option_bind]. unfold row_sums.
    rewrite list_lookup_fmap, Hrow. cbn [fmap option_fmap option_map mbind option_bind].
    unfold gcrow. by rewrite Kc2_entry_formula.
Qed.

(** *** The communities *)

Lemma elem_of_insert_unique (x y : Z) (l : list Z) :
  y ∈ insert_unique x l ↔ y = x ∨ y ∈ l.
Proof.
  induction l as [|a l IH]; cbn [insert_unique].
  - rewrite list_elem_of_singleton. split; [by left|]. intros [?|?]; [done|].
    by apply elem_of_nil in H.
  - destruct (x <? a) eqn:Hlt; [by rewrite elem_of_cons|].
    destruct (x =? a) eqn:Heq.
    + apply Z.eqb_eq in Heq as ->. rewrite elem_of_cons. tauto.
    + rewrite !elem_of_cons, IH. tauto.
Qed.

Lemma elem_of_unique (y : Z) (l : list Z) : y ∈ unique l ↔ y ∈ l.
Proof.
  unfold unique. induction l as [|a l IH]; [done|].
  cbn [foldr]. rewrite elem_of_insert_unique, IH, elem_of_cons. tauto.
Qed.

Lemma index_of_nonneg (x : Z) (l : list Z) : 0 ≤ index_of x l.
Proof. induction l as [|a l IH]; cbn [index_of]; [done|]. destruct (x =? a); lia. Qed.

Lemma index_of_inj (x y : Z) (l : list Z) :
  x ∈ l → y ∈ l → index_of x l = index_of y l → x = y.
Proof.
  induction l as [|a l IH]; [by intros ?%elem_of_nil|].
  intros Hx Hy. cbn [index_of].
  pose proof (index_of_nonneg x l). pose proof (index_of_nonneg y l).
  destruct (x =? a) eqn:Hxa, (y =? a) eqn:Hya; try lia.
  apply Z.eqb_neq in Hxa, Hya.
  apply elem_of_cons in Hx as [?|Hx]; [done|].
  apply elem_of_cons in Hy as [?|Hy]; [done|].
  intros Heq. apply IH; [done|done|lia].
Qed.

(** Two nodes have the same renumbered community exactly when they have
    the same label. *)
Lemma same_community (ci0 : list Z) (j k : nat) (a b : Z) :
  let ci := (fun c => c + 1) <$> unique_inverse ci0 in
  ci0 !! j = Some a → ci0 !! k = Some b →
  ci !! j = ci !! k ↔ a = b.
Proof.
  intros ci Ha Hb. unfold ci, unique_inverse.
  rewrite !list_lookup_fmap, Ha, Hb. cbn [fmap option_fmap option_map].
  split; [|by intros ->]. intros [= Heq].
  apply (index_of_inj a b (unique ci0)); [| |lia].
  - apply elem_of_unique. by eapply list_elem_of_lookup_2.
  - apply elem_of_unique. by eapply list_elem_of_lookup_2.
Qed.

Lemma le_foldr_max (c x : Z) (l : list Z) : c ∈ x :: l → c ≤ foldr Z.max x l.
Proof.
  induction l as [|a l IH]; cbn [foldr].
  - intros ->%list_elem_of_singleton. lia.
  - intros Hc. apply elem_of_cons in Hc as [->|Hc].
    + assert (x ≤ foldr Z.max x l) by (apply IH; left). lia.
    + apply elem_of_cons in Hc as [->|Hc]; [lia|].
      assert (c ≤ foldr Z.max x l) by (apply IH; by right). lia.
Qed.

Lemma community_bounds (ci0 : list Z) (kmax : Z) (j : nat) (c : Z) :
  let ci := (fun c => c + 1) <$> unique_inverse ci0 in
  max_of ci = Ok kmax → ci !! j = Some c → 1 ≤ c ≤ kmax.
Proof.
  intros ci Hmax Hc. split.
  - unfold ci, unique_inverse in Hc. rewrite !list_lookup_fmap in Hc.
    destruct (ci0 !! j) as [a|]; [|done]. injection Hc as <-.
    pose proof (index_of_nonneg a (unique ci0)). lia.
  - apply list_elem_of_lookup_2 in Hc. destruct ci as [|x l]; [done|].
    injection Hmax as <-. by apply le_foldr_max.
Qed.

(** X20: on an [n] by [n] matrix with [n] labels, the hand-written
    coefficient of node [i] is 1 minus the sum, over the communities, of
    the squared weight of its row into the community, divided by the
    square of the sum of its row.  The communities are the labels
    renumbered from 1 ([np.unique]): two nodes have the same number exactly
    when they have the same label, and every number is between 1 and the
    largest. *)
Theorem pc_core_formula (n : nat) (W : matrix Qc) (ci0 : list Z)
    (i : nat) (row : list (npfloat Qc)) :
  n_by_n n W → length ci0 = n → W !! i = Some row →
  let ci := (fun c => c + 1) <$> unique_inverse ci0 in
  ∃ P kmax,
    pc_core W ci0 = Ok (row_sums W, P) ∧ length P = n ∧
    max_of ci = Ok kmax ∧
    P !! i = Some (coefficient row ci kmax) ∧
    (∀ j k a b, ci0 !! j = Some a → ci0 !! k = Some b → ci !! j = ci !! k ↔ a = b) ∧
    (∀ j c, ci !! j = Some c → 1 ≤ c ≤ kmax).
Proof.
  intros HW Hci Hrow ci.
  destruct (pc_core_formula_row n W ci0 i row HW Hci Hrow)
    as (P & kmax & Hcore & HP & Hmax & Hi).
  exists P, kmax. repeat (split; [done|]). split.
  - intros j k a b. apply same_community.
  - intros j c. by apply community_bounds.
Qed.

(** Three nodes, the first two in community 7 and the third in community 9:
    node 0 has weight 1 into the first community and 2 into the second. *)
Definition fan : matrix Qc :=
  [ [of_Z 0; of_Z 1; of_Z 2]; [of_Z 0; of_Z 0; of_Z 0]; [of_Z 0; of_Z 0; of_Z 0] ].

Lemma pc_core_formula_witness :
  let ci := (fun c => c + 1) <$> unique_inverse [7; 7; 9] in
  ∃ P kmax,
    pc_core fan [7; 7; 9] = Ok (row_sums fan, P) ∧ length P = 3%nat ∧
    max_of ci = Ok kmax ∧
    P !! 0%nat = Some (coefficient [of_Z 0; of_Z 1; of_Z 2] ci kmax) ∧
    (∀ j k a b, [7; 7; 9] !! j = Some a → [7; 7; 9] !! k = Some b →
                ci !! j = ci !! k ↔ a = b) ∧
    (∀ j c, ci !! j = Some c → 1 ≤ c ≤ kmax).
Proof.
  apply (pc_core_formula 3 fan [7; 7; 9] 0 [of_Z 0; of_Z 1; of_Z 2]).
  - split; [reflexivity|]. repeat constructor.
  - reflexivity.
  - reflexivity.
Defined.

(** The coefficient of that node: 1 - (1 + 4) / 9 = 4/9. *)
Lemma fan_coefficient :
  eqb (coefficient [of_Z 0; of_Z 1; of_Z 2] [1; 1; 2] 2) (div (of_Z 4) (of_Z 9)) = true.
Proof. vm_compute. reflexivity. Qed.

End PcFormula.

(** ** Facts about run_pc_steps as a whole, and the labelling after it *)

Module RunFacts.
Import Np Hubs NpFacts PercentileFacts AverageFacts PcFacts.

(** What a threshold leaves for a node: NaN, or a number in (0, 100]. *)
Definition score (x : npfloat Qc) : Prop :=
  x = NaN ∨ ∃ q, x = Num q ∧ c_cmp q (c_ofZ 0) = Gt ∧ c_cmp q (c_ofZ 100) ≠ Gt.

(** What the average leaves for a node: a number in [0, 100]. *)
Definition average (x : npfloat Qc) : Prop :=
  ∃ q, x = Num q ∧ c_cmp q (c_ofZ 0) ≠ Lt ∧ c_cmp q (c_ofZ 100) ≠ Gt.

(** The vector of one threshold: [n] scores, the last one NaN. *)
Definition step_vector (n : nat) (out : list (npfloat Qc)) : Prop :=
  length out = n ∧ Forall score out ∧ out !! (n - 1)%nat = Some NaN.

Lemma step_scores (n : nat) (W : matrix Qc) (aff : list Z) :
  n_by_n n W → length aff = n → (0 < n)%nat →
  ∃ out, pc_threshold_step W aff = Ok out ∧ step_vector n out.
Proof.
  intros HW Haff Hn.
  destruct (step_entries n W aff HW Haff Hn)
    as (P & low & out & Hcore & Hlow & Hstep & Hout & Hent).
  destruct (step_last_row n W aff HW Haff Hn) as (out' & Hstep' & _ & Hlast).
  rewrite Hstep in Hstep'. injection Hstep' as <-.
  exists out. split; [done|]. split; [done|]. split; [|done].
  destruct (pc_core_ok n (triu1 W) aff) as (P' & _ & _ & Hcore' & HP & _);
    [by apply n_by_n_triu1|done|done|].
  rewrite Hcore in Hcore'. injection Hcore' as <-.
  apply Forall_lookup. intros i x Hx.
  assert (Hi : (i < n)%nat) by (apply lookup_lt_Some in Hx; lia).
  destruct (lookup_lt_is_Some_2 P i) as [w Hw]; [lia|].
  destruct (lookup_lt_is_Some_2 (degrees_und (triu1 W)) i) as [d Hd].
  { rewrite (length_degrees_und n); [done|by apply n_by_n_triu1]. }
  destruct (Hent i w d Hw Hd) as [Hnan Hnum].
  destruct (isnan w) eqn:Hw'.
  { rewrite Hnan in Hx by auto. injection Hx as <-. by left. }
  destruct (ltb (of_Z d) low) eqn:Hd'.
  { rewrite Hnan in Hx by auto. injection Hx as <-. by left. }
  destruct (Hnum eq_refl eq_refl) as (q & Hq & Hpos & Hle).
  rewrite Hq in Hx. injection Hx as <-. right. eauto.
Qed.

Lemma for_each_ok {A B : Type} (f : A → result B) (P : B → Prop) (l : list A) :
  (∀ x, x ∈ l → ∃ y, f x = Ok y ∧ P y) →
  ∃ ys, for_each f l = Ok ys ∧ length ys = length l ∧ Forall P ys.
Proof.
  induction l as [|a l IH]; intros Hl.
  - exists []. by repeat split.
  - destruct (Hl a) as (y & Hy & HP); [left|].
    destruct IH as (ys & Hys & Hlen & HPs); [intros x Hx; apply Hl; by right|].
    exists (y :: ys). cbn. rewrite Hy. cbn. rewrite Hys. cbn.
    split; [done|]. split; [by rewrite Hlen|by constructor].
Qed.

(** *** The mean of scores *)

Lemma Qsum_bounds (vals : list Qc) :
  Forall (fun q : Qc => (0 < q)%Qc ∧ (q ≤ Qc_of_Z 100)%Qc) vals →
  (0 ≤ Qsum vals)%Qc ∧
  (Qsum vals ≤ Qc_of_Z 100 * Qc_of_Z (Z.of_nat (length vals)))%Qc.
Proof.
  induction 1 as [|q vals [Hpos Hle] _ [IH0 IH100]].
  - split; by vm_compute.
  - cbn [Qsum length]. split.
    + apply Qclt_le_weak. by apply Qcplus_pos_nonneg.
    + rewrite Nat2Z.inj_succ, <- Z.add_1_l.
      replace (Qc_of_Z (1 + Z.of_nat (length vals)))
        with (1 + Qc_of_Z (Z.of_nat (length vals)))%Qc
        by (apply (ofZ_add 1 (Z.of_nat (length vals)))).
      rewrite Qcmult_plus_distr_r, Qcmult_1_r. by apply Qcplus_le_compat.
Qed.

Lemma Qcdiv_bounds (s l : Qc) :
  (0 < l)%Qc → (0 ≤ s)%Qc → (s ≤ Qc_of_Z 100 * l)%Qc →
  (0 ≤ s / l)%Qc ∧ (s / l ≤ Qc_of_Z 100)%Qc.
Proof.
  intros Hl Hs Hle.
  assert (Hne : l ≠ Q2Qc 0) by (intros Heq; by apply Qclt_not_eq in Hl).
  split.
  - unfold Qcdiv. apply Qcmult_nonneg_nonneg; [done|].
    apply Qclt_le_weak. by apply Qcinv_pos.
  - apply (Qcmult_lt_0_le_reg_r _ _ l); [done|].
    by rewrite Qcmult_comm, Qcmult_div_r.
Qed.

Lemma finite_values_scores (col : list (npfloat Qc)) :
  Forall score col →
  Forall (fun q : Qc => (0 < q)%Qc ∧ (q ≤ Qc_of_Z 100)%Qc) (finite_values col).
Proof.
  induction 1 as [|x col Hx _ IH]; [constructor|].
  destruct Hx as [->|(q & -> & Hpos & Hle)]; [exact IH|].
  unfold finite_values. cbn. constructor; [|exact IH]. split.
  - rewrite <- ofZ_0. by apply cmp_gt.
  - apply Qcnot_lt_le. intros Hlt. apply Hle. by apply cmp_gt.
Qed.

Lemma score_nan_or_number (x : npfloat Qc) : score x → nan_or_number x.
Proof. intros [->|(q & -> & _)]; [by left|by right]. Qed.

Lemma mean_of_scores (col : list (npfloat Qc)) :
  Forall score col → average (mean_ignoring_nan col).
Proof.
  intros Hcol. apply finite_values_scores in Hcol. unfold mean_ignoring_nan.
  destruct (finite_values col) as [|v vals] eqn:Hvals.
  - exists (c_ofZ 0). split; [done|]. by rewrite !cmp_ofZ.
  - eexists. split; [reflexivity|].
    destruct (Qsum_bounds _ Hcol) as [H0 H100].
    destruct (Qcdiv_bounds (Qsum (v :: vals)) (Qc_of_Z (Z.of_nat (length (v :: vals)))))
      as [Hlo Hhi]; [|done|done|].
    { assert (Hlen : c_cmp (c_ofZ (F:=Qc) 0) (c_ofZ (Z.of_nat (length (v :: vals)))) = Lt)
        by (rewrite cmp_ofZ; apply Z.compare_lt_iff; cbn [length]; lia).
      apply cmp_lt in Hlen. exact Hlen. }
    split.
    + intros Hlt. apply cmp_lt in Hlt. rewrite ofZ_0 in Hlt.
      by apply Qcle_not_lt in Hlo.
    + intros Hgt. apply cmp_gt in Hgt. by apply Qcle_not_lt in Hhi.
Qed.

Lemma mean_of_nans (col : list (npfloat Qc)) :
  Forall (fun x => x = NaN) col → mean_ignoring_nan col = of_Z 0.
Proof.
  intros Hcol. unfold mean_ignoring_nan.
  replace (finite_values col) with (@nil Qc); [done|].
  induction Hcol as [|x col -> _ IH]; [done|]. exact IH.
Qed.

(** *** The averaged vector of a stack of step vectors *)

Lemma column_at_Forall (P : npfloat Qc → Prop) (j : nat) (rows : matrix Qc) :
  Forall (Forall P) rows → Forall P (column_at j rows).
Proof.
  induction 1 as [|row rows Hrow _ IH]; [constructor|].
  unfold column_at. cbn. destruct (row !! j) as [x|] eqn:Hx; [|exact IH].
  constructor; [|exact IH]. rewrite Forall_lookup in Hrow. exact (Hrow j x Hx).
Qed.

Lemma column_at_last (n : nat) (rows : matrix Qc) :
  Forall (step_vector n) rows → Forall (fun x => x = NaN) (column_at (n - 1) rows).
Proof.
  induction 1 as [|row rows (_ & _ & Hlast) _ IH]; [constructor|].
  unfold column_at. cbn. rewrite Hlast. by constructor.
Qed.

Lemma length_avg_PC_perc (r : list (npfloat Qc)) (rest : matrix Qc) :
  length (avg_PC_perc (r :: rest)) = length r.
Proof. unfold avg_PC_perc, columns. by rewrite !length_fmap, length_seq. Qed.

Lemma lookup_avg_PC_perc (r : list (npfloat Qc)) (rest : matrix Qc) (j : nat) :
  (j < length r)%nat →
  Forall nan_or_number (column_at j (r :: rest)) →
  avg_PC_perc (r :: rest) !! j = Some (mean_ignoring_nan (column_at j (r :: rest))).
Proof.
  intros Hj Hcol. unfold avg_PC_perc.
  rewrite !list_lookup_fmap, columns_lookup by done.
  cbn [fmap option_fmap option_map]. f_equal. by apply nanmean_spec.
Qed.

Lemma avg_of_step_vectors (n : nat) (all : matrix Qc) :
  (0 < n)%nat → all ≠ [] → Forall (step_vector n) all →
  length (avg_PC_perc all) = n ∧
  Forall average (avg_PC_perc all) ∧
  avg_PC_perc all !! (n - 1)%nat = Some (of_Z 0).
Proof.
  intros Hn Hne Hall. destruct all as [|r rest]; [done|].
  assert (Hr : length r = n) by (inversion Hall as [|? ? [? _] _]; done).
  assert (Hscores : Forall (Forall score) (r :: rest)).
  { eapply Forall_impl; [exact Hall|]. by intros v (_ & Hv & _). }
  split; [by rewrite length_avg_PC_perc|]. split.
  - apply Forall_lookup. intros j x Hx.
    assert (Hj : (j < length r)%nat).
    { apply lookup_lt_Some in Hx. by rewrite length_avg_PC_perc in Hx. }
    pose proof (column_at_Forall score j _ Hscores) as Hcol.
    rewrite lookup_avg_PC_perc in Hx; [|done|].
    + injection Hx as <-. by apply mean_of_scores.
    + eapply Forall_impl; [exact Hcol|]. apply score_nan_or_number.
  - rewrite lookup_avg_PC_perc; [|lia|].
    + f_equal. apply mean_of_nans. by apply column_at_last.
    + eapply Forall_impl; [exact (column_at_last n _ Hall)|].
      intros x ->. by left.
Qed.

(** *** A parcel without a score is not a hub *)

Lemma count_if_none {A : Type} (p : A → bool) (l : list A) :
  Forall (fun x => p x = false) l → count_if p l = 0.
Proof.
  intros Hl. unfold count_if.
  replace (filter (fun x => p x = true) l) with (@nil A); [done|].
  induction Hl as [|x l Hx _ IH]; [done|].
  rewrite filter_cons_False by congruence. exact IH.
Qed.

(** Among numbers that are not negative, the percentile of a 0 is below 80
    as soon as there are two entries. *)
Lemma percentile_of_zero (avg_vect : list (npfloat Qc)) :
  (2 ≤ length avg_vect)%nat → Forall average avg_vect →
  ltb (percentileofscore avg_vect (of_Z 0)) (of_Z 80) = true.
Proof.
  intros Hn Hall.
  assert (Hleft : count_if (fun x : npfloat Qc => ltb x (of_Z 0)) avg_vect = 0).
  { apply count_if_none. eapply Forall_impl; [exact Hall|].
    intros x (q & -> & Hq & _). unfold ltb, of_Z, compare.
    by destruct (c_cmp q (c_ofZ 0)). }
  pose proof (count_if_le_length (fun x : npfloat Qc => leb x (of_Z 0)) avg_vect) as Hright.
  unfold percentileofscore. cbv zeta.
  replace (isnan (of_Z (F:=Qc) 0)) with false by done.
  destruct avg_vect as [|a avg']; [cbn in Hn; lia|].
  replace (length (a :: avg') =? 0)%nat with false by done.
  rewrite Hleft. cbn [length] in Hright, Hn.
  set (right := count_if (fun x : npfloat Qc => leb x (of_Z 0)) (a :: avg')) in *.
  unfold of_Z, mul, div. rewrite sign_ofZ, ofZ_mul.
  replace (Z.of_nat (length (a :: avg')) ?= 0) with Gt
    by (symmetry; apply Z.compare_gt_iff; cbn [length]; lia).
  unfold ltb, compare. rewrite cmp_div_ofZ by (cbn [length]; lia).
  match goal with
  | |- context [(?x ?= ?y)] => replace (x ?= y) with Lt; [done|]
  end.
  symmetry. apply Z.compare_lt_iff. cbn [length]. destruct (0 <? right); lia.
Qed.

Lemma zero_not_hub (avg_vect : list (npfloat Qc)) (i : nat) :
  (2 ≤ length avg_vect)%nat → Forall average avg_vect →
  avg_vect !! i = Some (of_Z 0) →
  Z.of_nat i + 1 ∉ label_hubs avg_vect.
Proof.
  intros Hn Hall Hi Hin. unfold label_hubs in Hin.
  apply list_elem_of_fmap in Hin as (i' & Heq & Hin).
  assert (i' = i) as -> by lia. clear Heq.
  unfold np_nonzero in Hin. apply list_elem_of_filter in Hin as [Hnz _].
  unfold cens_avg_vect, final_avg_perc_vect in Hnz.
  rewrite !list_lookup_fmap, Hi in Hnz.
  cbn [fmap option_fmap option_map from_option] in Hnz.
  rewrite percentile_of_zero in Hnz by done.
  unfold nonzero, eqb, compare, of_Z in Hnz. by rewrite cmp_refl in Hnz.
Qed.

(** *** run_pc_steps *)

Section Run.
Variable threshold_proportional : matrix Qc → Qc → matrix Qc.
Variable n : nat.
Variable orig_dist_censored_zmat : matrix Qc.
Variable aff_vect_of : Qc → result (list Z).

(** The thresholded matrices are [n] by [n] with finite weights, and every
    threshold has its file of [n] labels. *)
Definition well_shaped : Prop :=
  ∀ thr, thr ∈ threshold_list →
    n_by_n n (threshold_proportional orig_dist_censored_zmat thr) ∧
    finite_matrix (threshold_proportional orig_dist_censored_zmat thr) ∧
    ∃ aff, aff_vect_of thr = Ok aff ∧ length aff = n.

Lemma run_ok :
  (0 < n)%nat → well_shaped →
  ∃ all,
    run_pc_steps threshold_proportional orig_dist_censored_zmat aff_vect_of
      = Ok (all, avg_PC_perc all) ∧
    length all = 12%nat ∧ Forall (step_vector n) all.
Proof.
  intros Hn Hshape. unfold run_pc_steps.
  edestruct (for_each_ok
    (fun thr =>
       aff_vect ← aff_vect_of thr;
       pc_threshold_step (threshold_proportional orig_dist_censored_zmat thr) aff_vect)
    (step_vector n) threshold_list) as (all & Hall & Hlen & Hvec).
  { intros thr Hthr. destruct (Hshape thr Hthr) as (HW & _ & aff & Haff & Hlen).
    rewrite Haff. cbn. by apply step_scores. }
  exists all. rewrite Hall. cbn. split; [done|]. split; [exact Hlen|exact Hvec].
Qed.

(** X9: with twelve [n] by [n] thresholded matrices of finite weights and
    twelve files of [n] labels ([n] at least 2), run_pc_steps returns
    twelve vectors of [n] entries and an averaged vector of [n] entries;
    every averaged entry is a number between 0 and 100, and the entry of
    the parcel of highest index is exactly 0. *)
Theorem run_pc_steps_scores :
  (2 ≤ n)%nat → well_shaped →
  ∃ all avg,
    run_pc_steps threshold_proportional orig_dist_censored_zmat aff_vect_of
      = Ok (all, avg) ∧
    length all = 12%nat ∧ Forall (fun v => length v = n) all ∧
    length avg = n ∧ Forall average avg ∧
    avg !! (n - 1)%nat = Some (of_Z 0).
Proof.
  intros Hn Hshape. destruct run_ok as (all & Hrun & Hlen & Hvec); [lia|done|].
  destruct (avg_of_step_vectors n all) as (Havg & Hrange & Hlast); [lia| |done|].
  { intros ->. discriminate. }
  exists all, (avg_PC_perc all). repeat (split; [done|]).
  split; [|done]. eapply Forall_impl; [exact Hvec|]. by intros v [Hv _].
Qed.

(** X10: under the same conditions, a parcel whose averaged entry is 0 (it
    had no score at any threshold) is not in the hub list label_hubs makes
    of the averaged vector; the parcel of highest index never is. *)
Theorem run_pc_steps_unscored_never_hub :
  (2 ≤ n)%nat → well_shaped →
  ∃ all avg,
    run_pc_steps threshold_proportional orig_dist_censored_zmat aff_vect_of
      = Ok (all, avg) ∧
    (∀ i, avg !! i = Some (of_Z 0) → Z.of_nat i + 1 ∉ label_hubs avg) ∧
    Z.of_nat n ∉ label_hubs avg.
Proof.
  intros Hn Hshape. destruct run_ok as (all & Hrun & Hlen & Hvec); [lia|done|].
  destruct (avg_of_step_vectors n all) as (Havg & Hrange & Hlast); [lia| |done|].
  { intros ->. discriminate. }
  exists all, (avg_PC_perc all). split; [done|].
  assert (Hzero : ∀ i, avg_PC_perc all !! i = Some (of_Z 0) →
                       Z.of_nat i + 1 ∉ label_hubs (avg_PC_perc all)).
  { intros i Hi. apply zero_not_hub; [lia|done|done]. }
  split; [exact Hzero|].
  replace (Z.of_nat n) with (Z.of_nat (n - 1) + 1) by lia. by apply Hzero.
Qed.

End Run.

(** A subject with three parcels: every threshold keeps the whole matrix,
    every label file is [1 1 2]. *)
Definition keep_all (m : matrix Qc) (_ : Qc) : matrix Qc := m.

Definition same_labels (_ : Qc) : result (list Z) := Ok [1; 1; 2].

Lemma three_nodes_well_shaped : well_shaped keep_all 3 three_nodes same_labels.
Proof.
  intros thr _. split; [|split].
  - split; [reflexivity|]. repeat constructor.
  - repeat constructor.
  - exists [1; 1; 2]. by split.
Qed.

Lemma run_pc_steps_scores_witness :
  ∃ all avg,
    run_pc_steps keep_all three_nodes same_labels = Ok (all, avg) ∧
    length all = 12%nat ∧ Forall (fun v => length v = 3%nat) all ∧
    length avg = 3%nat ∧ Forall average avg ∧
    avg !! (3 - 1)%nat = Some (of_Z 0).
Proof.
  apply (run_pc_steps_scores keep_all 3 three_nodes same_labels).
  - lia.
  - exact three_nodes_well_shaped.
Defined.

Lemma run_pc_steps_unscored_never_hub_witness :
  ∃ all avg,
    run_pc_steps keep_all three_nodes same_labels = Ok (all, avg) ∧
    (∀ i, avg !! i = Some (of_Z 0) → Z.of_nat i + 1 ∉ label_hubs avg) ∧
    Z.of_nat 3 ∉ label_hubs avg.
Proof.
  apply (run_pc_steps_unscored_never_hub keep_all 3 three_nodes same_labels).
  - lia.
  - exact three_nodes_well_shaped.
Defined.

End RunFacts.

(** ** Facts about the text files the scripts exchange *)

Module TextFacts.
Import Hubs.

(** *** Decimal digits *)

Definition uint_chars (d : Decimal.uint) : list ascii :=
  list_ascii_of_string (NilEmpty.string_of_uint d).

(** What [int_digits] makes of the digits of [d] after [acc]. *)
Fixpoint uint_value (acc : Z) (d : Decimal.uint) : Z :=
  match d with
  | Decimal.Nil => acc
  | Decimal.D0 l => uint_value (10 * acc + 0) l
  | Decimal.D1 l => uint_value (10 * acc + 1) l
  | Decimal.D2 l => uint_value (10 * acc + 2) l
  | Decimal.D3 l => uint_value (10 * acc + 3) l
  | Decimal.D4 l => uint_value (10 * acc + 4) l
  | Decimal.D5 l => uint_value (10 * acc + 5) l
  | Decimal.D6 l => uint_value (10 * acc + 6) l
  | Decimal.D7 l => uint_value (10 * acc + 7) l
  | Decimal.D8 l => uint_value (10 * acc + 8) l
  | Decimal.D9 l => uint_value (10 * acc + 9) l
  end.

Lemma int_digits_uint (d : Decimal.uint) (acc : Z) (after_digit : bool) :
  d ≠ Decimal.Nil ∨ after_digit = true →
  Py.int_digits acc after_digit (uint_chars d) = Some (uint_value acc d).
Proof.
  revert acc after_digit.
  induction d as [|d IH|d IH|d IH|d IH|d IH|d IH|d IH|d IH|d IH|d IH];
    intros acc b Hd;
    [destruct Hd as [Hd | ->]; [done|reflexivity]|..];
    apply (IH _ true); by right.
Qed.

Lemma uint_value_pos (d : Decimal.uint) (p : positive) :
  uint_value (Z.pos p) d = Z.pos (Pos.of_uint_acc d p).
Proof.
  revert p. induction d as [|d IH|d IH|d IH|d IH|d IH|d IH|d IH|d IH|d IH|d IH];
    intros p; [done|..]; cbn [uint_value Pos.of_uint_acc]; rewrite <- IH; f_equal; lia.
Qed.

Lemma uint_value_0 (d : Decimal.uint) : uint_value 0 d = Z.of_N (Pos.of_uint d).
Proof.
  induction d as [|d IH|d IH|d IH|d IH|d IH|d IH|d IH|d IH|d IH|d IH];
    [done|exact IH|..]; cbn [uint_value Pos.of_uint Z.of_N]; apply uint_value_pos.
Qed.

Lemma int_digits_to_uint (p : positive) :
  Py.int_digits 0 false (uint_chars (Pos.to_uint p)) = Some (Z.pos p).
Proof.
  rewrite int_digits_uint by (left; apply DecimalPos.Unsigned.to_uint_nonnil).
  by rewrite uint_value_0, DecimalPos.Unsigned.of_to.
Qed.

Definition digit (c : ascii) : Prop := Py.digit_of c ≠ None.

Lemma uint_chars_digits (d : Decimal.uint) : Forall digit (uint_chars d).
Proof.
  induction d as [|d IH|d IH|d IH|d IH|d IH|d IH|d IH|d IH|d IH|d IH];
    [constructor|..]; (constructor; [done|exact IH]).
Qed.


(** *** The characters of [str(z)] *)

Definition int_chars (z : Z) : list ascii := list_ascii_of_string (Py.str_int z).

Definition nonspace (c : ascii) : Prop := Py.is_space c = false.
Definition space (c : ascii) : Prop := Py.is_space c = true.

Lemma digit_nonspace (c : ascii) : digit c → nonspace c.
Proof.
  unfold digit, nonspace. destruct c as [[] [] [] [] [] [] [] []]; vm_compute; congruence.
Qed.

Lemma string_of_uint_nonnil (d : Decimal.uint) :
  d ≠ Decimal.Nil → NilZero.string_of_uint d = NilEmpty.string_of_uint d.
Proof. by destruct d. Qed.

Lemma int_chars_pos (p : positive) : int_chars (Z.pos p) = uint_chars (Pos.to_uint p).
Proof.
  unfold int_chars, Py.str_int, uint_chars. cbn [Z.to_int NilZero.string_of_int].
  by rewrite string_of_uint_nonnil by apply Unsigned.to_uint_nonnil.
Qed.

Lemma int_chars_neg (p : positive) :
  int_chars (Z.neg p) = "-"%char :: uint_chars (Pos.to_uint p).
Proof.
  unfold int_chars, Py.str_int, uint_chars. cbn [Z.to_int NilZero.string_of_int].
  by rewrite string_of_uint_nonnil by apply Unsigned.to_uint_nonnil.
Qed.

Lemma int_chars_nonspace (z : Z) : Forall nonspace (int_chars z).
Proof.
  destruct z as [|p|p].
  - by repeat constructor.
  - rewrite int_chars_pos. eapply Forall_impl; [apply uint_chars_digits|].
    apply digit_nonspace.
  - rewrite int_chars_neg. constructor; [done|].
    eapply Forall_impl; [apply uint_chars_digits|]. apply digit_nonspace.
Qed.

Lemma int_chars_nonempty (z : Z) : int_chars z ≠ [].
Proof.
  destruct z as [|p|p]; [done| |by rewrite int_chars_neg].
  rewrite int_chars_pos. unfold uint_chars.
  pose proof (Unsigned.to_uint_nonnil p). by destruct (Pos.to_uint p).
Qed.

(** *** strip and int *)

Lemma lstrip_nonspace (s : list ascii) : Forall nonspace s → Py.lstrip_chars s = s.
Proof. destruct 1 as [|c s Hc _]; [done|]. cbn. by rewrite Hc. Qed.

Lemma lstrip_nonspace_head (c : ascii) (s : list ascii) :
  nonspace c → Py.lstrip_chars (c :: s) = c :: s.
Proof. intros Hc. cbn. by rewrite Hc. Qed.

Lemma lstrip_spaces (w t : list ascii) :
  Forall space w → Py.lstrip_chars (w ++ t) = Py.lstrip_chars t.
Proof. induction 1 as [|c w Hc _ IH]; [done|]. cbn. by rewrite Hc. Qed.

Lemma strip_chars_body (s w : list ascii) :
  Forall nonspace s → Forall space w → Py.strip_chars (s ++ w) = s.
Proof.
  intros Hs Hw. unfold Py.strip_chars.
  assert (Hrev : Py.lstrip_chars (rev w ++ rev s) = rev s).
  { rewrite lstrip_spaces by (by apply Forall_rev).
    apply lstrip_nonspace. by apply Forall_rev. }
  destruct Hs as [|c s Hc Hs].
  - cbn [app]. rewrite <- (app_nil_r w) at 1.
    rewrite lstrip_spaces by done. reflexivity.
  - replace (Py.lstrip_chars ((c :: s) ++ w)) with ((c :: s) ++ w)
      by (symmetry; by apply (lstrip_nonspace_head c (s ++ w))).
    rewrite rev_app_distr, Hrev. apply rev_involutive.
Qed.

Lemma strip_chars_int_chars (z : Z) : Py.strip_chars (int_chars z) = int_chars z.
Proof.
  rewrite <- (app_nil_r (int_chars z)) at 1.
  apply strip_chars_body; [apply int_chars_nonspace|constructor].
Qed.

(** [int] reads back what [str] writes, whatever blanks surround it. *)
Lemma int_of_stripped (s : string) (z : Z) :
  Py.strip_chars (list_ascii_of_string s) = int_chars z → Py.int s = Ok z.
Proof.
  intros Hs. unfold Py.int. rewrite Hs. destruct z as [|p|p].
  - reflexivity.
  - rewrite int_chars_pos. pose proof (int_digits_to_uint p) as Hp.
    pose proof (Unsigned.to_uint_nonnil p) as Hnil.
    destruct (Pos.to_uint p); [done|..];
      exact (f_equal (of_option ValueError) Hp).
  - rewrite int_chars_neg. pose proof (int_digits_to_uint p) as Hp.
    change (of_option ValueError
              (Z.opp <$> Py.int_digits 0 false (uint_chars (Pos.to_uint p)))
            = Ok (Z.neg p)).
    by rewrite Hp.
Qed.

Lemma int_str_int (z : Z) : Py.int (Py.str_int z) = Ok z.
Proof. apply int_of_stripped, strip_chars_int_chars. Qed.

(** *** Lines *)

Lemma chars_append (a b : string) :
  list_ascii_of_string (String.append a b)
    = list_ascii_of_string a ++ list_ascii_of_string b.
Proof. induction a as [|c a IH]; [done|]. simpl. by f_equal. Qed.

Lemma universal_newlines_id (s : list ascii) :
  Forall (fun c => c ≠ Py.CR) s → Py.universal_newlines s = s.
Proof.
  induction 1 as [|c s Hc _ IH]; [done|]. cbn [Py.universal_newlines].
  destruct (Ascii.eqb_spec c Py.CR); [done|]. by rewrite IH.
Qed.

Lemma split_lines_line (cur body rest : list ascii) :
  Forall (fun c => c ≠ Py.LF) body →
  Py.split_lines cur (body ++ Py.LF :: rest)
    = string_of_list_ascii (rev cur ++ body ++ [Py.LF]) :: Py.split_lines [] rest.
Proof.
  intros Hbody. revert cur. induction Hbody as [|c body Hc _ IH]; intros cur.
  - cbn [app Py.split_lines]. by rewrite Ascii.eqb_refl.
  - cbn [app Py.split_lines]. destruct (Ascii.eqb_spec c Py.LF); [done|].
    rewrite IH. cbn [rev]. by rewrite <- app_assoc.
Qed.

(** A line of text: characters that are neither a line feed nor a carriage
    return, closed by a line feed. *)
Definition text_line (l : string) : Prop :=
  ∃ body, list_ascii_of_string l = body ++ [Py.LF] ∧
          Forall (fun c => c ≠ Py.LF ∧ c ≠ Py.CR) body.

Lemma chars_written (chunks : list string) :
  list_ascii_of_string (Py.written chunks)
    = concat (list_ascii_of_string <$> chunks).
Proof.
  induction chunks as [|c chunks IH]; [done|].
  unfold Py.written in *. cbn [foldr]. by rewrite chars_append, IH.
Qed.

(** Lines that are written one after the other are the lines read back. *)
Lemma readlines_written (lines : list string) :
  Forall text_line lines → Py.readlines (Py.written lines) = lines.
Proof.
  intros Hlines. unfold Py.readlines. rewrite chars_written.
  rewrite universal_newlines_id.
  - induction Hlines as [|l lines (body & Hl & Hbody) _ IH]; [done|].
    cbn [fmap list_fmap concat]. rewrite Hl, <- app_assoc. cbn [app].
    rewrite split_lines_line by (eapply Forall_impl; [exact Hbody|]; by intros c [? _]).
    cbn [rev app]. rewrite <- Hl, string_of_list_ascii_of_string. by rewrite IH.
  - induction Hlines as [|l lines (body & Hl & Hbody) _ IH]; [constructor|].
    cbn [fmap list_fmap concat]. apply Forall_app. split; [|exact IH].
    rewrite Hl. apply Forall_app. split.
    + eapply Forall_impl; [exact Hbody|]. by intros c [_ ?].
    + by repeat constructor.
Qed.

Lemma nonspace_plain (c : ascii) : nonspace c → c ≠ Py.LF ∧ c ≠ Py.CR.
Proof. intros Hc. split; intros ->; discriminate Hc. Qed.

(** *** The file of hub indices *)

Lemma chars_hub_indices_line (hi : Z) :
  list_ascii_of_string (hub_indices_line hi) = int_chars hi ++ [" "%char; Py.LF].
Proof.
  unfold hub_indices_line. cbn [Py.join]. by rewrite !chars_append.
Qed.

Lemma hub_indices_line_text (hi : Z) : text_line (hub_indices_line hi).
Proof.
  exists (int_chars hi ++ [" "%char]). split.
  - by rewrite chars_hub_indices_line, <- app_assoc.
  - apply Forall_app. split; [|by repeat constructor].
    eapply Forall_impl; [apply int_chars_nonspace|]. apply nonspace_plain.
Qed.

Lemma strip_hub_indices_line (hi : Z) : Py.strip (hub_indices_line hi) = Py.str_int hi.
Proof.
  unfold Py.strip. rewrite chars_hub_indices_line.
  rewrite strip_chars_body; [|apply int_chars_nonspace|by repeat constructor].
  apply string_of_list_ascii_of_string.
Qed.

Lemma truthy_str_int (z : Z) : Py.truthy (Py.str_int z) = true.
Proof.
  pose proof (int_chars_nonempty z) as Hne. unfold int_chars in Hne.
  by destruct (Py.str_int z).
Qed.

Lemma for_each_int_str (l : list Z) : for_each Py.int (Py.str_int <$> l) = Ok l.
Proof.
  induction l as [|z l IH]; [done|]. cbn. rewrite int_str_int. cbn. by rewrite IH.
Qed.

Lemma readlines_hub_indices_file (hub_list : list Z) :
  Py.readlines (hub_indices_file hub_list) = hub_indices_line <$> hub_list.
Proof.
  unfold hub_indices_file. apply readlines_written.
  apply Forall_fmap, Forall_forall. intros hi _. apply hub_indices_line_text.
Qed.

Lemma strip_hub_lines (hub_list : list Z) :
  Py.strip <$> (hub_indices_line <$> hub_list) = Py.str_int <$> hub_list.
Proof.
  rewrite <- list_fmap_compose. apply list_fmap_ext. intros _ hi _.
  apply strip_hub_indices_line.
Qed.

Lemma filter_all {A : Type} (P : A → Prop) `{∀ x, Decision (P x)} (l : list A) :
  Forall P l → filter P l = l.
Proof.
  induction 1 as [|x l Hx _ IH]; [done|]. by rewrite filter_cons_True, IH.
Qed.

Lemma hub_round_trip (hub_list : list Z) :
  Density.read_indices (Py.readlines (hub_indices_file hub_list)) = Ok hub_list ∧
  Profiles.read_hub_indices (hub_indices_file hub_list) = Ok hub_list.
Proof.
  unfold Density.read_indices, Profiles.read_hub_indices.
  rewrite readlines_hub_indices_file, strip_hub_lines. split.
  - rewrite filter_all; [apply for_each_int_str|].
    apply Forall_fmap, Forall_forall. intros z _. apply truthy_str_int.
  - apply for_each_int_str.
Qed.

(** X11: the file of hub indices that label_hubs writes is read back as
    the same list of parcel numbers by both scripts that load it. *)
Theorem hub_indices_round_trip (hub_list : list Z) :
  Density.read_indices (Py.readlines (hub_indices_file hub_list)) = Ok hub_list ∧
  Profiles.read_hub_indices (hub_indices_file hub_list) = Ok hub_list.
Proof. apply hub_round_trip. Qed.

End TextFacts.

(** ** Facts about the readers of the hub index files *)

Module IndexFacts.
Import Np Hubs TextFacts DensityFacts LabelFacts.

(** *** A blank line *)

Lemma of_option_raise {A : Type} (e e' : exn) (o : option A) :
  of_option e o = Raise e' → e' = e.
Proof. destruct o; cbn; congruence. Qed.

Lemma for_each_int_raise (l : list string) :
  (∃ s, s ∈ l ∧ Py.int s = Raise ValueError) →
  for_each Py.int l = Raise ValueError.
Proof.
  intros (s & Hs & Hraise). induction l as [|a l IH]; [by inversion Hs|].
  cbn [for_each]. destruct (Py.int a) as [z|e] eqn:Ha.
  - apply elem_of_cons in Hs as [->|Hs]; [congruence|].
    cbn. by rewrite IH.
  - unfold Py.int in Ha. apply of_option_raise in Ha as ->. reflexivity.
Qed.

Lemma truthy_not_empty (s : string) : Py.truthy s = true ↔ s ≠ EmptyString.
Proof. by destruct s. Qed.

Lemma filter_fmap_filter {A B : Type} (f : A → B) (P : B → Prop)
    `{∀ y, Decision (P y)} (l : list A) :
  filter P (f <$> l) = filter P (f <$> filter (fun x => P (f x)) l).
Proof.
  induction l as [|x l IH]; [done|]. cbn [fmap list_fmap].
  rewrite (filter_cons (fun x => P (f x))). rewrite filter_cons.
  destruct (decide (P (f x))) as [HP|HP].
  - cbn [fmap list_fmap]. rewrite filter_cons_True by done. by rewrite IH.
  - exact IH.
Qed.

(** X12: on a file of hub indices that holds a blank line the two readers
    part: Create_Hub_Profiles.py converts every stripped line with [int]
    and stops with ValueError, Hub_Density_Map.py drops the blank lines
    first and reads the file as if they were not there. *)
Theorem blank_line_readers_differ (content : string) :
  (∃ l, l ∈ Py.readlines content ∧ Py.strip l = EmptyString) →
  Profiles.read_hub_indices content = Raise ValueError ∧
  Density.read_indices (Py.readlines content)
    = Density.read_indices
        (filter (fun l => Py.strip l ≠ EmptyString) (Py.readlines content)).
Proof.
  intros (l & Hl & Hblank). split.
  - unfold Profiles.read_hub_indices. apply for_each_int_raise.
    exists EmptyString. split; [|done].
    rewrite <- Hblank. apply list_elem_of_fmap. eauto.
  - unfold Density.read_indices. f_equal.
    rewrite (filter_fmap_filter Py.strip).
    f_equal. f_equal. apply filter_ext_in. intros s _. apply truthy_not_empty.
Qed.

Definition trailing_blank_line : string :=
  String.append (hub_indices_file [5; 10]) Py.newline.

Lemma blank_line_readers_differ_witness :
  Profiles.read_hub_indices trailing_blank_line = Raise ValueError ∧
  Density.read_indices (Py.readlines trailing_blank_line)
    = Density.read_indices
        (filter (fun l => Py.strip l ≠ EmptyString) (Py.readlines trailing_blank_line)).
Proof.
  apply (blank_line_readers_differ trailing_blank_line).
  exists Py.newline. split; [|reflexivity].
  vm_compute. do 2 right. left.
Defined.

(** *** An entry that is no parcel number *)

Lemma fold_result_app {A S : Type} (f : S → A → result S) (s : S) (l1 l2 : list A) :
  fold_result f s (l1 ++ l2) = (s' ← fold_result f s l1; fold_result f s' l2).
Proof.
  revert s. induction l1 as [|a l1 IH]; intros s; [done|].
  cbn [app fold_result]. destruct (f s a); [apply IH|done].
Qed.

Lemma for_each_fmap_ok {A B : Type} (f : A → result B) (g : A → B) (l : list A) :
  (∀ x, x ∈ l → f x = Ok (g x)) → for_each f l = Ok (g <$> l).
Proof.
  induction l as [|a l IH]; intros Hl; [done|].
  cbn [for_each]. rewrite Hl by left. cbn. rewrite IH; [done|].
  intros x Hx. apply Hl. by right.
Qed.

(** X13: the aggregator has no entry for a number outside 1..333: at the
    first such line, after files and lines that were in range, it stops
    with the KeyError of that number and writes no count vector. *)
Theorem density_entry_out_of_range
    (before : list (list string)) (parsed : list (list Z))
    (file : list string) (after : list (list string))
    (good : list Z) (h : Z) (rest : list Z) :
  for_each Density.read_indices before = Ok parsed →
  (∀ l x, l ∈ parsed → x ∈ l → 1 ≤ x ≤ 333) →
  Density.read_indices file = Ok (good ++ h :: rest) →
  Forall (fun x => 1 ≤ x ≤ 333) good →
  ¬ (1 ≤ h ≤ 333) →
  Density.main (before ++ file :: after) = Raise (KeyError h).
Proof.
  intros Hbefore Hrange Hfile Hgood Hh. unfold Density.main.
  rewrite fold_result_app.
  destruct (populate_ok before parsed _ _ Hbefore Hrange hub_counts_dict_ok)
    as (d1 & -> & Hd1).
  cbn [mbind result_bind fold_result].
  assert (Hpf : Density.populate_file d1 file = Raise (KeyError h)).
  { unfold Density.populate_file. rewrite Hfile. cbn [mbind result_bind].
    rewrite fold_result_app.
    destruct (fold_bump_ok good d1 _ Hd1 Hgood) as (d2 & -> & Hd2).
    cbn [mbind result_bind fold_result]. unfold Density.bump.
    rewrite (Hd2 h), decide_False by done. reflexivity. }
  rewrite Hpf. reflexivity.
Qed.

Lemma density_entry_out_of_range_witness :
  Density.main ([["5"; "10"]] ++ ["7"; "334"; "8"] :: [["9"]]) = Raise (KeyError 334).
Proof.
  apply (density_entry_out_of_range [["5"; "10"]] [[5; 10]] ["7"; "334"; "8"] [["9"]]
           [7] 334 [8]).
  - reflexivity.
  - intros l x Hl Hx. apply list_elem_of_singleton in Hl as ->.
    repeat (apply elem_of_cons in Hx as [->|Hx]); try lia. by apply elem_of_nil in Hx.
  - reflexivity.
  - repeat constructor; lia.
  - lia.
Defined.

(** *** From the averaged vectors of a group to its density map *)

Lemma increasing_NoDup (l : list Z) : StronglySorted Z.lt l → NoDup l.
Proof.
  induction 1 as [|x l _ IH Hx]; constructor; [|exact IH].
  intros Hin. rewrite Forall_forall in Hx. specialize (Hx x Hin). lia.
Qed.

Section Group.
Context {F : Type} `{Carrier F}.

(** The index file of a subject, as the aggregator reads it. *)
Definition index_file_of (avg_vect : list (npfloat F)) : list string :=
  Py.readlines (hub_indices_file (label_hubs avg_vect)).

(** The number of subjects that have parcel [p] as a hub. *)
Definition subjects_with_hub (p : Z) (avg_vects : list (list (npfloat F))) : Z :=
  Z.of_nat (length (filter (fun v => p ∈ label_hubs v) avg_vects)).

Lemma read_index_file (avg_vect : list (npfloat F)) :
  Density.read_indices (index_file_of avg_vect) = Ok (label_hubs avg_vect).
Proof. apply hub_round_trip. Qed.

Lemma files_containing_fmap (p : Z) (avg_vects : list (list (npfloat F))) :
  Density.files_containing p (label_hubs <$> avg_vects) = subjects_with_hub p avg_vects.
Proof.
  unfold Density.files_containing, subjects_with_hub. f_equal.
  induction avg_vects as [|v vs IH]; [done|].
  cbn [fmap list_fmap]. rewrite !filter_cons.
  destruct (decide (p ∈ label_hubs v)); cbn [length]; by rewrite IH.
Qed.

(** X14: for a group of subjects of at most 333 parcels each, the
    aggregator run on the index files that label_hubs wrote returns 333
    counts, and the count of parcel [p] is the number of subjects that have
    [p] in their hub list. *)
Theorem density_of_labelled_hubs (avg_vects : list (list (npfloat F))) :
  Forall (fun v => (length v ≤ 333)%nat) avg_vects →
  ∃ vect, Density.main (index_file_of <$> avg_vects) = Ok vect ∧
    length vect = 333%nat ∧
    ∀ p, 1 ≤ p ≤ 333 →
      vect !! Z.to_nat (p - 1) = Some (subjects_with_hub p avg_vects).
Proof.
  intros Hlen.
  assert (Hparse : for_each Density.read_indices (index_file_of <$> avg_vects)
                   = Ok (label_hubs <$> avg_vects)).
  { clear Hlen. induction avg_vects as [|v vs IH]; [done|].
    cbn [fmap list_fmap for_each]. rewrite read_index_file. cbn [mbind result_bind].
    rewrite IH. reflexivity. }
  assert (Hrange : ∀ l x, l ∈ label_hubs <$> avg_vects → x ∈ l → 1 ≤ x ≤ 333).
  { intros l x Hl Hx. apply list_elem_of_fmap in Hl as (v & -> & Hv).
    apply hubs_in_range in Hx. rewrite Forall_forall in Hlen.
    specialize (Hlen v Hv). lia. }
  destruct (populate_ok _ _ _ _ Hparse Hrange hub_counts_dict_ok) as (d & Hd & Hcounts).
  exists ((fun p => 0 + Density.occurrences p (concat (label_hubs <$> avg_vects)))
            <$> Py.range 1 334).
  split; [|split].
  - unfold Density.main. rewrite Hd. exact (the_vect_ok d _ Hcounts).
  - by rewrite length_fmap, length_range.
  - intros p Hp. rewrite list_lookup_fmap, lookup_range by lia.
    cbn [fmap option_fmap option_map]. f_equal.
    replace (1 + Z.of_nat (Z.to_nat (p - 1))) with p by lia.
    rewrite Z.add_0_l, occurrences_concat_NoDup; [apply files_containing_fmap|].
    apply Forall_fmap, Forall_forall. intros v _. cbn.
    apply increasing_NoDup, hubs_sorted.
Qed.

End Group.

Lemma density_of_labelled_hubs_witness :
  ∃ vect,
    Density.main (index_file_of (F:=Qc) <$> [of_Z <$> [1; 2; 3; 4; 5]; []]) = Ok vect ∧
    length vect = 333%nat ∧
    ∀ p, 1 ≤ p ≤ 333 →
      vect !! Z.to_nat (p - 1)
        = Some (subjects_with_hub p [of_Z <$> [1; 2; 3; 4; 5]; []]).
Proof.
  apply (density_of_labelled_hubs [of_Z <$> [1; 2; 3; 4; 5]; []]).
  repeat constructor; cbn; lia.
Defined.

End IndexFacts.

(** ** Facts about run_infomap *)

Module InfomapFacts.
Import Np Hubs TextFacts.

(** *** sorted *)

Definition by_key {A : Type} (key : A → Z) (a b : A) : Prop := key a ≤ key b.

Lemma insert_by_perm {A : Type} (key : A → Z) (x : A) (l : list A) :
  Py.insert_by key x l ≡ₚ x :: l.
Proof.
  induction l as [|y l IH]; [done|]. cbn [Py.insert_by].
  destruct (key x <? key y); [done|]. rewrite IH. apply Permutation_swap.
Qed.

Lemma sorted_perm {A : Type} (key : A → Z) (l : list A) : Py.sorted key l ≡ₚ l.
Proof.
  unfold Py.sorted.
  enough (Hgen : ∀ acc, fold_left (fun acc x => Py.insert_by key x acc) l acc ≡ₚ acc ++ l)
    by apply Hgen.
  induction l as [|x l IH]; intros acc; [by rewrite app_nil_r|].
  cbn [fold_left]. rewrite IH, insert_by_perm. cbn [app]. apply Permutation_middle.
Qed.

Lemma insert_by_sorted {A : Type} (key : A → Z) (x : A) (l : list A) :
  StronglySorted (by_key key) l → StronglySorted (by_key key) (Py.insert_by key x l).
Proof.
  induction 1 as [|y l Hl IH Hy]; [by repeat constructor|].
  cbn [Py.insert_by]. destruct (key x <? key y) eqn:Hxy.
  - apply Z.ltb_lt in Hxy. constructor; [by constructor|].
    constructor; [unfold by_key; lia|].
    eapply Forall_impl; [exact Hy|]. unfold by_key. intros z Hz. lia.
  - apply Z.ltb_ge in Hxy. constructor; [exact IH|].
    rewrite insert_by_perm. by constructor.
Qed.

Lemma sorted_sorted {A : Type} (key : A → Z) (l : list A) :
  StronglySorted (by_key key) (Py.sorted key l).
Proof.
  unfold Py.sorted.
  enough (Hgen : ∀ acc, StronglySorted (by_key key) acc →
            StronglySorted (by_key key)
              (fold_left (fun acc x => Py.insert_by key x acc) l acc))
    by (apply Hgen; constructor).
  induction l as [|x l IH]; intros acc Hacc; [done|].
  cbn [fold_left]. by apply IH, insert_by_sorted.
Qed.

Lemma range_sorted (a b : Z) : StronglySorted Z.le (Py.range a b).
Proof.
  unfold Py.range. apply (StronglySorted_fmap _ lt Z.le); [intros i j Hij; lia|].
  apply LabelFacts.StronglySorted_seq.
Qed.

(** *** The affiliation vector *)

Lemma aff_vect_file (s_tups : list (Z * Z)) :
  Py.written (aff_vect_line <$> s_tups) = hub_indices_file (snd <$> s_tups).
Proof. unfold hub_indices_file. by rewrite <- list_fmap_compose. Qed.


(** A .clu file of three nodes, listed in the order 3, 1, 2. *)
Definition clu_example : string :=
  Py.written ((fun l => String.append l Py.newline) <$>
    ["# module level 1"; "# node module flow"; "3 2 0.25"; "1 1 0.5"; "2 2 0.25"]).


(** *** The NaN check *)

Section Check.
Context {F : Type} `{Carrier F}.

(** The entries hold a NaN, or both infinities. *)
Definition poisoned (l : list (npfloat F)) : Prop :=
  NaN ∈ l ∨ (Inf false ∈ l ∧ Inf true ∈ l).

Lemma poisoned_cons (x : npfloat F) (l : list (npfloat F)) :
  poisoned l → poisoned (x :: l).
Proof. intros [?|[? ?]]; [left|right; split]; by right. Qed.

Lemma poisoned_finite (l : list (npfloat F)) :
  Forall (fun x : npfloat F => isfinite x = true) l → ¬ poisoned l.
Proof.
  intros Hl Hp. rewrite Forall_forall in Hl.
  destruct Hp as [Hp|[Hp _]]; by apply Hl in Hp.
Qed.

(** The sum is NaN exactly for poisoned entries, an infinity when that
    infinity occurs, and a number when all entries are numbers. *)
Lemma sum_cases (l : list (npfloat F)) :
  match sum l with
  | NaN => poisoned l
  | Inf s => ¬ poisoned l ∧ Inf s ∈ l
  | Num _ => Forall (fun x : npfloat F => isfinite x = true) l
  end.
Proof.
  induction l as [|x l IH]; [constructor|].
  change (sum (x :: l)) with (add x (sum l)).
  destruct x as [|s|q].
  - left. left.
  - destruct (sum l) as [|t|r] eqn:Hsum; cbn [add].
    + by apply poisoned_cons.
    + destruct IH as [Hnp Hin]. destruct (Bool.eqb s t) eqn:Hst.
      * apply Bool.eqb_prop in Hst as ->. split; [|left].
        intros [Hp|[Hp1 Hp2]].
        -- apply Hnp. left. by apply elem_of_cons in Hp as [?|?].
        -- apply Hnp. right. destruct t; (split; [|]); try exact Hin.
           ++ by apply elem_of_cons in Hp1 as [?|?].
           ++ by apply elem_of_cons in Hp2 as [?|?].
      * right. destruct s, t; try done; split;
          first [by left | by right].
    + split; [|left]. intros [Hp|[Hp1 Hp2]].
      * apply elem_of_cons in Hp as [?|Hp]; [done|].
        rewrite Forall_forall in IH. by apply IH in Hp.
      * rewrite Forall_forall in IH.
        apply elem_of_cons in Hp1 as [Hp1|Hp1]; [|by apply IH in Hp1].
        apply elem_of_cons in Hp2 as [Hp2|Hp2]; [|by apply IH in Hp2].
        congruence.
  - destruct (sum l) as [|t|r] eqn:Hsum; cbn [add].
    + by apply poisoned_cons.
    + destruct IH as [Hnp Hin]. split; [|by right].
      intros [Hp|[Hp1 Hp2]].
      * apply Hnp. left. by apply elem_of_cons in Hp as [?|?].
      * apply Hnp. right.
        apply elem_of_cons in Hp1 as [?|?], Hp2 as [?|?]; done.
    + by constructor.
Qed.

Lemma check_nan_poisoned (thresh_mat : matrix F) :
  check_nan thresh_mat = true ↔ poisoned (concat thresh_mat).
Proof.
  unfold check_nan. pose proof (sum_cases (concat thresh_mat)) as Hs.
  destruct (sum (concat thresh_mat)); cbn [isnan].
  - done.
  - split; [done|]. by intros ?%(proj1 Hs).
  - split; [done|]. by intros ?%(poisoned_finite _ Hs).
Qed.

Variable threshold_proportional : matrix F → Qc → matrix F.
Variable ready_zmat : matrix F.

Lemma check_loop (thresholds : list Qc) :
  let check := fun thresh =>
    let thresh_mat := threshold_proportional ready_zmat thresh in
    if check_nan thresh_mat then Raise nan_found else Ok thresh_mat in
  (Exists (fun thr => poisoned (concat (threshold_proportional ready_zmat thr))) thresholds →
   for_each check thresholds = Raise nan_found) ∧
  (Forall (fun thr => ¬ poisoned (concat (threshold_proportional ready_zmat thr))) thresholds →
   for_each check thresholds = Ok (threshold_proportional ready_zmat <$> thresholds)).
Proof.
  intros check. subst check. induction thresholds as [|thr l [IHbad IHgood]].
  - split; [by inversion 1|done].
  - cbn [for_each]. cbv beta zeta in IHbad, IHgood |- *.
    destruct (check_nan (threshold_proportional ready_zmat thr)) eqn:Hc.
    + split; [intros _; reflexivity|].
      intros Hall. inversion Hall as [|? ? Hthr _]; subst.
      exfalso. apply Hthr. by apply check_nan_poisoned.
    + cbn [mbind result_bind]. split.
      * intros Hex. inversion Hex as [? ? Hthr|? ? Hl]; subst.
        -- apply check_nan_poisoned in Hthr. congruence.
        -- by rewrite IHbad.
      * intros Hall. inversion Hall; subst. by rewrite IHgood.
Qed.

(** X16: run_infomap stops with [NaN found] exactly when, for some
    threshold, the thresholded matrix holds a NaN or holds both
    infinities, whose sum is NaN as well; without such a matrix all twelve
    thresholded matrices go on to the graph and to infomap. *)
Theorem run_infomap_nan_check :
  (Exists (fun thr => poisoned (concat (threshold_proportional ready_zmat thr)))
          threshold_list →
   run_infomap_matrices threshold_proportional ready_zmat = Raise nan_found) ∧
  (Forall (fun thr => ¬ poisoned (concat (threshold_proportional ready_zmat thr)))
          threshold_list →
   run_infomap_matrices threshold_proportional ready_zmat
     = Ok (threshold_proportional ready_zmat <$> threshold_list)).
Proof. apply check_loop. Qed.

End Check.

End InfomapFacts.

(** ** Facts about create_profiles *)

Module ProfileFacts.
Import Np Profiles.

(** *** The thirteen networks *)

Lemma networks_in_range : Forall (Forall (fun i => 0 ≤ i < 333)) networks.
Proof. apply (bool_decide_unpack _). vm_compute. exact I. Qed.

Lemma networks_NoDup : Forall NoDup networks.
Proof. apply (bool_decide_unpack _). vm_compute. exact I. Qed.

(** Every parcel of 0..332 is in exactly one network. *)
Lemma networks_partition (k : Z) :
  0 ≤ k < 333 → length (filter (fun net => k ∈ net) networks) = 1%nat.
Proof.
  intros Hk.
  assert (Hall : Forall (fun k => length (filter (fun net => k ∈ net) networks) = 1%nat)
                        (Py.range 0 333))
    by (apply (bool_decide_unpack _); vm_compute; exact I).
  rewrite Forall_forall in Hall. apply Hall. apply DensityFacts.elem_of_range. lia.
Qed.

Section Profile.
Context {F : Type} `{Carrier F}.

(** The connections of a row to the parcels of a network. *)
Definition values (row : list (npfloat F)) (net : list Z) : list (npfloat F) :=
  (fun i => default NaN (row !! Z.to_nat i)) <$> net.

Lemma getitem_ok (row : list (npfloat F)) (i : Z) :
  0 ≤ i < Z.of_nat (length row) →
  Py.getitem row i = Ok (default NaN (row !! Z.to_nat i)).
Proof.
  intros Hi. unfold Py.getitem. cbv zeta.
  replace (i <? 0) with false by (symmetry; apply Z.ltb_ge; lia).
  replace (0 <=? i) with true by (symmetry; apply Z.leb_le; lia).
  replace (i <? Z.of_nat (length row)) with true by (symmetry; apply Z.ltb_lt; lia).
  cbn [andb]. destruct (lookup_lt_is_Some_2 row (Z.to_nat i)) as [x ->]; [lia|done].
Qed.

Lemma getitem_raise {A : Type} (l : list A) (i : Z) (e : exn) :
  Py.getitem l i = Raise e → e = IndexError.
Proof.
  unfold Py.getitem. cbv zeta. destruct (_ && _); [|congruence].
  destruct (l !! _); cbn; congruence.
Qed.

Lemma getitem_out (row : list (npfloat F)) (i : Z) :
  Z.of_nat (length row) ≤ i → Py.getitem row i = Raise IndexError.
Proof.
  intros Hi. unfold Py.getitem. cbv zeta.
  replace (i <? 0) with false by (symmetry; apply Z.ltb_ge; lia).
  replace (i <? Z.of_nat (length row)) with false by (symmetry; apply Z.ltb_ge; lia).
  by rewrite andb_false_r.
Qed.

Lemma for_each_values (row : list (npfloat F)) (net : list Z) :
  Forall (fun i => 0 ≤ i < Z.of_nat (length row)) net →
  for_each (Py.getitem row) net = Ok (values row net).
Proof.
  induction 1 as [|i net Hi _ IH]; [done|].
  cbn [for_each]. rewrite getitem_ok by done. cbn [mbind result_bind].
  rewrite IH. reflexivity.
Qed.

Lemma for_each_networks (row : list (npfloat F)) (nets : list (list Z)) :
  Forall (Forall (fun i => 0 ≤ i < Z.of_nat (length row))) nets →
  for_each (fun net => for_each (Py.getitem row) net) nets = Ok (values row <$> nets).
Proof.
  induction 1 as [|net nets Hnet _ IH]; [done|].
  cbn [for_each]. rewrite for_each_values by done. cbn [mbind result_bind].
  rewrite IH. reflexivity.
Qed.

Lemma networks_in_row (row : list (npfloat F)) :
  (333 ≤ length row)%nat →
  Forall (Forall (fun i => 0 ≤ i < Z.of_nat (length row))) networks.
Proof.
  intros Hrow. eapply Forall_impl; [apply networks_in_range|].
  intros net Hnet. eapply Forall_impl; [exact Hnet|]. cbn. lia.
Qed.

Lemma loc_ok (zmat : matrix F) (hi : Z) (row : list (npfloat F)) :
  0 ≤ hi → zmat !! Z.to_nat hi = Some row → loc zmat hi = Ok row.
Proof.
  intros Hhi Hrow. unfold loc. apply lookup_lt_Some in Hrow as Hlt.
  replace (0 <=? hi) with true by (symmetry; apply Z.leb_le; lia).
  replace (hi <? Z.of_nat (length zmat)) with true by (symmetry; apply Z.ltb_lt; lia).
  cbn [andb]. by rewrite Hrow.
Qed.

(** The row has a value equal to 1.0 at some parcel of the network. *)
Definition has_one (row : list (npfloat F)) (net : list Z) : Prop :=
  Exists (fun i => is_one (default NaN (row !! Z.to_nat i)) = true) net.

(** The number of networks in which the row has a value equal to 1.0. *)
Definition lists_with_one (row : list (npfloat F)) : nat :=
  length (filter (has_one row) networks).

Lemma existsb_values (row : list (npfloat F)) (net : list Z) :
  existsb is_one (values row net) = true ↔ has_one row net.
Proof.
  unfold has_one, values. induction net as [|i net IH].
  - split; [done|by inversion 1].
  - cbn [fmap list_fmap existsb]. rewrite orb_true_iff, IH, Exists_cons. done.
Qed.

(** The lists after [nc.remove(1.0)] where [1.0 in nc]. *)
Definition cleaned (row : list (npfloat F)) (net : list Z) : list (npfloat F) :=
  if existsb is_one (values row net)
  then Py.remove_first is_one (values row net)
  else values row net.

Lemma length_filter_fmap {A B : Type} (f : A → B) (P : B → Prop)
    `{∀ y, Decision (P y)} (l : list A) :
  length (filter P (f <$> l)) = length (filter (fun x => P (f x)) l).
Proof.
  induction l as [|x l IH]; [done|]. cbn [fmap list_fmap].
  rewrite (filter_cons (fun x => P (f x))), filter_cons.
  destruct (decide (P (f x))); cbn [length]; by rewrite IH.
Qed.

(** What the loop body does with the row of a hub. *)
Lemma hub_profile_row (zmat : matrix F) (hi : Z) (row : list (npfloat F)) :
  1 ≤ hi → zmat !! Z.to_nat (hi - 1) = Some row → (333 ≤ length row)%nat →
  hub_profile zmat hi =
    if (Z.of_nat (lists_with_one row) =? 1)
    then Ok (mean <$> (cleaned row <$> networks))
    else Raise self_corr_exit.
Proof.
  intros Hhi Hrow Hlen. unfold hub_profile. cbv zeta.
  rewrite (loc_ok zmat (hi - 1) row) by (done || lia). cbn [mbind result_bind].
  rewrite for_each_networks by (by apply networks_in_row). cbn [mbind result_bind].
  rewrite length_filter_fmap.
  rewrite (LabelFacts.filter_ext_in _ (has_one row) networks)
    by (intros net _; apply existsb_values).
  fold (lists_with_one row).
  destruct (Z.of_nat (lists_with_one row) =? 1); [|done].
  by rewrite <- !list_fmap_compose.
Qed.

(** X17: for a hub whose row has at least 333 entries, create_profiles
    counts the networks in which the row has a value equal to 1.0, not the
    values: with exactly one such network it returns the thirteen averages
    of the lists, the first 1.0 of that network removed; with none or
    several it exits. *)
Theorem hub_profile_counts_lists (zmat : matrix F) (hi : Z) (row : list (npfloat F)) :
  1 ≤ hi → zmat !! Z.to_nat (hi - 1) = Some row → (333 ≤ length row)%nat →
  (lists_with_one row = 1%nat →
   hub_profile zmat hi = Ok (mean <$> (cleaned row <$> networks))) ∧
  (lists_with_one row ≠ 1%nat → hub_profile zmat hi = Raise self_corr_exit).
Proof.
  intros Hhi Hrow Hlen. rewrite (hub_profile_row zmat hi row) by done. split.
  - intros ->. reflexivity.
  - intros Hne. destruct (Z.of_nat (lists_with_one row) =? 1) eqn:Heq; [|done].
    apply Z.eqb_eq in Heq. lia.
Qed.

(** *** A row whose only 1.0 is the hub itself *)

Lemma remove_first_values (row : list (npfloat F)) (k : Z) (net : list Z) :
  NoDup net →
  (∀ i, i ∈ net → is_one (default NaN (row !! Z.to_nat i)) = true ↔ i = k) →
  existsb is_one (values row net) = bool_decide (k ∈ net) ∧
  cleaned row net = values row (filter (fun i => i ≠ k) net).
Proof.
  unfold cleaned. induction 1 as [|i net Hi Hnd IH]; intros Hone.
  - by rewrite bool_decide_eq_false_2 by apply not_elem_of_nil.
  - destruct IH as [IHex IHcl]; [intros j Hj; apply Hone; by right|].
    cbn [values fmap list_fmap existsb Py.remove_first]. fold (values row net).
    rewrite filter_cons.
    destruct (is_one (default NaN (row !! Z.to_nat i))) eqn:Hv.
    + apply Hone in Hv as ->; [|left]. cbn [orb].
      rewrite bool_decide_eq_true_2 by left. split; [done|].
      rewrite decide_False by auto. f_equal.
      rewrite TextFacts.filter_all; [done|].
      apply Forall_forall. intros j Hj ->. done.
    + assert (Hik : i ≠ k).
      { intros ->. destruct (Hone k) as [_ Hk]; [left|]. rewrite Hk in Hv; done. }
      cbn [orb]. rewrite decide_True by done. rewrite IHex. split.
      * apply bool_decide_ext. rewrite elem_of_cons. split; [by right|].
        intros [Heq|Hin]; [by symmetry in Heq|done].
      * rewrite IHex in IHcl. unfold values at 3. cbn [fmap list_fmap].
        fold (values row (filter (fun i => i ≠ k) net)). rewrite <- IHcl.
        by destruct (bool_decide (k ∈ net)).
Qed.

(** X18: when the only value equal to 1.0 among the first 333 entries of
    the row of hub [hi] is its own entry, create_profiles returns, for every
    network, the average of the row over the parcels of the network that
    are not the hub: the self-connection is left out of the hub's own
    network, and every other network is averaged whole. *)
Theorem hub_profile_self_removed (zmat : matrix F) (hi : Z) (row : list (npfloat F)) :
  1 ≤ hi ≤ 333 → zmat !! Z.to_nat (hi - 1) = Some row → (333 ≤ length row)%nat →
  (∀ i, 0 ≤ i < 333 → is_one (default NaN (row !! Z.to_nat i)) = true ↔ i = hi - 1) →
  hub_profile zmat hi
    = Ok ((fun net => mean (values row (filter (fun i => i ≠ hi - 1) net))) <$> networks).
Proof.
  intros Hhi Hrow Hlen Hone.
  assert (Hnets : ∀ net, net ∈ networks →
            existsb is_one (values row net) = bool_decide (hi - 1 ∈ net) ∧
            cleaned row net = values row (filter (fun i => i ≠ hi - 1) net)).
  { intros net Hnet. apply remove_first_values.
    - pose proof networks_NoDup as Hnd. rewrite Forall_forall in Hnd. by apply Hnd.
    - intros i Hi. apply Hone.
      pose proof networks_in_range as Hr. rewrite Forall_forall in Hr.
      specialize (Hr net Hnet). rewrite Forall_forall in Hr. by apply Hr. }
  rewrite (hub_profile_row zmat hi row) by (done || lia).
  assert (Hcount : lists_with_one row = 1%nat).
  { unfold lists_with_one. rewrite <- (networks_partition (hi - 1)) by lia.
    f_equal. apply LabelFacts.filter_ext_in. intros net Hnet.
    rewrite <- existsb_values, (proj1 (Hnets net Hnet)). apply bool_decide_eq_true. }
  rewrite Hcount. cbn [Z.of_nat Pos.of_succ_nat Z.eqb Pos.eqb]. f_equal.
  rewrite <- list_fmap_compose. apply list_fmap_ext. intros j net Hnet.
  cbn [compose]. f_equal. apply Hnets. by eapply list_elem_of_lookup_2.
Qed.

(** *** Bounds *)

Lemma for_each_raise {A B : Type} (f : A → result B) (e : exn) (l : list A) :
  (∀ x e', f x = Raise e' → e' = e) →
  (∃ x e', x ∈ l ∧ f x = Raise e') →
  for_each f l = Raise e.
Proof.
  intros Hall (x & e' & Hx & Hfx). induction l as [|a l IH]; [by inversion Hx|].
  cbn [for_each]. destruct (f a) as [b|ea] eqn:Ha.
  - apply elem_of_cons in Hx as [->|Hx]; [congruence|].
    cbn [mbind result_bind]. by rewrite IH.
  - apply Hall in Ha as ->. reflexivity.
Qed.

Lemma for_each_raise_only {A B : Type} (f : A → result B) (e : exn) (l : list A) :
  (∀ x e', f x = Raise e' → e' = e) →
  ∀ e', for_each f l = Raise e' → e' = e.
Proof.
  intros Hall e'. induction l as [|a l IH]; [done|].
  cbn [for_each]. destruct (f a) as [b|ea] eqn:Ha.
  - cbn [mbind result_bind]. destruct (for_each f l); [done|].
    cbn [mbind result_bind]. intros [= <-]. by apply IH.
  - apply Hall in Ha as ->. cbn [mbind result_bind]. by intros [= <-].
Qed.

(** X19: create_profiles checks no bounds of its own.  A hub number that
    is not a row of the matrix (0, negative, beyond the last row) stops
    with the KeyError of [hi - 1]; a row of fewer than 333 entries stops
    with IndexError when a network list reaches past its end. *)
Theorem hub_profile_bounds (zmat : matrix F) (hi : Z) :
  (¬ (1 ≤ hi ≤ Z.of_nat (length zmat)) →
   hub_profile zmat hi = Raise (KeyError (hi - 1))) ∧
  (∀ row, 1 ≤ hi → zmat !! Z.to_nat (hi - 1) = Some row → (length row < 333)%nat →
          hub_profile zmat hi = Raise IndexError).
Proof.
  split.
  - intros Hhi. unfold hub_profile, loc. cbv zeta.
    destruct ((0 <=? hi - 1) && (hi - 1 <? Z.of_nat (length zmat))) eqn:Hb; [|done].
    apply andb_true_iff in Hb as [?%Z.leb_le ?%Z.ltb_lt]. lia.
  - intros row Hhi Hrow Hlen. unfold hub_profile. cbv zeta.
    rewrite (loc_ok zmat (hi - 1) row) by (done || lia). cbn [mbind result_bind].
    rewrite (for_each_raise _ IndexError); [done| |].
    + intros net e' Hnet.
      by apply (for_each_raise_only (Py.getitem row) IndexError net (getitem_raise row)).
    + exists va, IndexError. split; [unfold networks; set_solver|].
      apply for_each_raise; [apply (getitem_raise row)|].
      exists 332, IndexError. split; [unfold va; set_solver|].
      apply getitem_out. lia.
Qed.

End Profile.

(** A matrix of 333 rows whose row 9 is 1.0 at parcel 9 and 0 elsewhere. *)
Definition unit_row (k : Z) : list (npfloat Qc) :=
  (fun i => if i =? k then of_Z 1 else of_Z 0) <$> Py.range 0 333.

Definition unit_zmat : matrix Qc := unit_row <$> Py.range 0 333.

Lemma unit_zmat_row : unit_zmat !! Z.to_nat (10 - 1) = Some (unit_row 9).
Proof. reflexivity. Qed.

Lemma hub_profile_counts_lists_witness :
  (lists_with_one (unit_row 9) = 1%nat →
   hub_profile unit_zmat 10 = Ok (mean <$> (cleaned (unit_row 9) <$> networks))) ∧
  (lists_with_one (unit_row 9) ≠ 1%nat → hub_profile unit_zmat 10 = Raise self_corr_exit).
Proof.
  apply (hub_profile_counts_lists unit_zmat 10 (unit_row 9)).
  - lia.
  - exact unit_zmat_row.
  - vm_compute. lia.
Defined.

Lemma unit_row_one (k i : Z) :
  0 ≤ k < 333 → 0 ≤ i < 333 →
  is_one (default NaN (unit_row k !! Z.to_nat i)) = true ↔ i = k.
Proof.
  intros Hk Hi. unfold unit_row.
  rewrite list_lookup_fmap, DensityFacts.lookup_range by lia.
  cbn [fmap option_fmap option_map default].
  replace (0 + Z.of_nat (Z.to_nat i)) with i by lia.
  destruct (i =? k) eqn:Hik.
  - apply Z.eqb_eq in Hik. split; [done|]. intros _. vm_compute. reflexivity.
  - apply Z.eqb_neq in Hik. split; [|done]. vm_compute. discriminate.
Qed.

Lemma hub_profile_self_removed_witness :
  hub_profile unit_zmat 10
    = Ok ((fun net => mean (values (unit_row 9) (filter (fun i => i ≠ 10 - 1) net)))
            <$> networks).
Proof.
  apply (hub_profile_self_removed unit_zmat 10 (unit_row 9)).
  - lia.
  - exact unit_zmat_row.
  - vm_compute. lia.
  - intros i Hi. apply unit_row_one; lia.
Defined.

(** Two values equal to 1.0 in the same network (parcels 9 and 63 are both
    auditory): one list holds a 1.0, the check passes, and the second 1.0
    stays in the average of that network. *)
Definition two_ones_row : list (npfloat Qc) :=
  (fun i => if (i =? 9) || (i =? 63) then of_Z 1 else of_Z 0) <$> Py.range 0 333.

Lemma two_ones_same_network :
  lists_with_one two_ones_row = 1%nat ∧
  (fun x => eqb x (div (of_Z 1) (of_Z 23))) <$> (mean <$> (cleaned two_ones_row <$> networks)) !! 0%nat
    = Some true.
Proof. split; vm_compute; reflexivity. Qed.

End ProfileFacts.
